(** * prisma-client-py: template generation and settings resolution

    A shallow embedding of the two pieces of decision logic of the
    repository,

    - [noxfile.py]: the feature registry [CONFIG], the table
      [TEMPLATE_TO_FEATURE], [has_feature] and the template loop of
      [generate];
    - [src/prisma/_config.py]: [DefaultConfig], [Config.from_base],
      [Config.load] and [LazyConfigProxy];

    followed by the properties the specification states about them. *)

From Stdlib Require Import String Ascii List.
From stdpp Require Import gmap strings list fin_maps.

Set Default Proof Using "Type".

(** ** Python values shared by both files *)

(** Exceptions.  The calls into jinja2, pydantic, tomlkit and the operating
    system can raise many things; everything the code under study does not
    name itself is gathered under [OtherError]. *)
Inductive exn : Type :=
| RuntimeError (msg : string)
| AttributeError (msg : string)
| TemplateNotFound (name : string)
| ValidationError (field : string)
| OtherError (what : string).

(** What a call does: it returns a value or raises. *)
Inductive outcome (A : Type) : Type :=
| Return (a : A)
| Raise (e : exn).
Arguments Return {A} a.
Arguments Raise {A} e.

(** Effectful code threads a state of type [St]; a raised exception keeps
    the state reached so far, as in Python. *)
Definition M (St A : Type) : Type := St → outcome A * St.

Definition ret {St A} (a : A) : M St A := λ s, (Return a, s).
Definition raise {St A} (e : exn) : M St A := λ s, (Raise e, s).
Definition bind {St A B} (m : M St A) (k : A → M St B) : M St B :=
  λ s, match m s with
       | (Return a, s') => k a s'
       | (Raise e, s') => (Raise e, s')
       end.
Definition lift {St A} (o : outcome A) : M St A := λ s, (o, s).
Definition get {St} : M St St := λ s, (Return s, s).
Definition modify {St} (f : St → St) : M St unit := λ s, (Return tt, f s).

(** [try: m except ...]: the outcome of [m] is handed to the handler
    instead of being propagated. *)
Definition try_except {St A B} (m : M St A) (k : outcome A → M St B) : M St B :=
  λ s, let '(o, s') := m s in k o s'.

Declare Scope py_scope.
Delimit Scope py_scope with py.
Notation "x <- m ;; k" := (bind m (λ x, k))
  (at level 100, m at next level, right associativity) : py_scope.
Notation "m ;;; k" := (bind m (λ _, k))
  (at level 100, right associativity) : py_scope.
Open Scope py_scope.

(** [for x in xs: body x], stopping at the first exception. *)
Fixpoint for_each {St A} (xs : list A) (body : A → M St unit) : M St unit :=
  match xs with
  | [] => ret tt
  | x :: xs' => body x ;;; for_each xs' body
  end.

(** ** Strings *)

(** [s.startswith(p)]. *)
Definition startswith (s p : string) : bool := String.prefix p s.

(** [s.replace(old, new, 1)]: the first occurrence of [old], scanning from
    the left, is replaced; [s] is returned as it is when there is none. *)
Fixpoint replace1 (old new s : string) : string :=
  if String.prefix old s then
    new +:+ String.substring (String.length old)
              (String.length s - String.length old) s
  else match s with
       | EmptyString => EmptyString
       | String c s' => String c (replace1 old new s')
       end.

(** [sub in s]. *)
Definition contains (s sub : string) : Prop :=
  ∃ pre post, s = pre +:+ sub +:+ post.

(** ** Paths (pathlib, POSIX flavour) *)

(** The root of a path: none, ["/"], or the ["//"] that pathlib keeps for
    exactly two leading slashes. *)
Inductive root : Type := Relative | Slash | DoubleSlash.

Record Path : Type := mkPath { path_root : root; path_parts : list string }.

Global Instance root_eq_dec : EqDecision root.
Proof. solve_decision. Defined.
Global Instance Path_eq_dec : EqDecision Path.
Proof. solve_decision. Defined.

(** Number of leading ['/'] and the rest. *)
Fixpoint lstrip_slash (s : string) : nat * string :=
  match s with
  | String "/"%char s' => let '(n, r) := lstrip_slash s' in (S n, r)
  | _ => (0, s)
  end.

(** [s.split('/')] with the current component accumulated in [cur]. *)
Fixpoint split_slash (cur : string) (s : string) : list string :=
  match s with
  | EmptyString => [String.rev cur]
  | String "/"%char s' => String.rev cur :: split_slash EmptyString s'
  | String c s' => split_slash (String c cur) s'
  end.

(** Components that survive parsing: neither empty nor ["."]. *)
Definition keep_part (x : string) : bool :=
  negb (String.eqb x "" || String.eqb x ".").

(** [Path(s)]. *)
Definition Path_of (s : string) : Path :=
  let '(n, rest) := lstrip_slash s in
  mkPath (match n with 0 => Relative | 2 => DoubleSlash | _ => Slash end)
         (filter (λ x, Is_true (keep_part x)) (split_slash EmptyString rest)).

(** [p / q] for a path [q]: a rooted right operand replaces the left one. *)
Definition joinpath (p q : Path) : Path :=
  match path_root q with
  | Relative => mkPath (path_root p) (path_parts p ++ path_parts q)
  | _ => q
  end.

(** [p / s] for a string [s]. *)
Definition truediv (p : Path) (s : string) : Path := joinpath p (Path_of s).
Notation "p // s" := (truediv p s) (at level 40, left associativity) : py_scope.

(** ['/' in s]. *)
Fixpoint has_slash (s : string) : bool :=
  match s with
  | EmptyString => false
  | String "/"%char _ => true
  | String _ s' => has_slash s'
  end.


(** * noxfile.py *)

Module Noxfile.

(** ** The feature registry *)

Inductive Feature : Type :=
| enum | json | arrays | create_many | case_sensitivity.

Global Instance Feature_eq_dec : EqDecision Feature.
Proof. solve_decision. Defined.

(** [auto()] numbers the members from 1 in declaration order. *)
Definition Feature_value (f : Feature) : positive :=
  match f with
  | enum => 1 | json => 2 | arrays => 3 | create_many => 4
  | case_sensitivity => 5
  end%positive.

Definition Feature_of_value (p : positive) : option Feature :=
  match p with
  | 1 => Some enum | 2 => Some json | 3 => Some arrays
  | 4 => Some create_many | 5 => Some case_sensitivity | _ => None
  end%positive.

Global Program Instance Feature_countable : Countable Feature :=
  {| encode := Feature_value; decode := Feature_of_value |}.
Next Obligation. by intros []. Qed.

(** The members by name, as [getattr(Feature, name)] finds them. *)
Definition Feature_name (f : Feature) : string :=
  match f with
  | enum => "enum" | json => "json" | arrays => "arrays"
  | create_many => "create_many" | case_sensitivity => "case_sensitivity"
  end.

Definition Feature_members : gmap string Feature :=
  list_to_map ((λ f, (Feature_name f, f)) <$>
                 [enum; json; arrays; create_many; case_sensitivity]).

Record Defaults : Type := { case_sensitive_filtering : bool }.

Record DatabaseConfig : Type :=
  { disable_features : gset Feature; defaults : Defaults }.

Definition CONFIG : gmap string DatabaseConfig :=
  {[ "postgresql" :=
       {| disable_features := ∅;
          defaults := {| case_sensitive_filtering := true |} |};
     "sqlite" :=
       {| disable_features :=
            {[ enum; json; arrays; create_many; case_sensitivity ]};
          defaults := {| case_sensitive_filtering := false |} |} ]}.

Definition TEMPLATE_TO_FEATURE : gmap string Feature :=
  {[ "base/test_enums.py.jinja" := enum;
     "base/test_arrays.py.jinja" := arrays;
     "base/test_create_many.py.jinja" := create_many;
     "base/test_case_sensitivity.py.jinja" := case_sensitivity;
     "base/types/test_json.py.jinja" := json ]}.

(** [getattr(Feature, feature)] for the name of a member; any other name is
    answered with [AttributeError] (the attributes that the class object has
    besides its members are not part of the model). *)
Definition Feature_getattr (feature : string) : outcome Feature :=
  match Feature_members !! feature with
  | Some f => Return f
  | None => Raise (AttributeError feature)
  end.

(** [has_feature(config, feature)]: it reads its two arguments and nothing
    else, hence a function and not a computation in [M]. *)
Definition has_feature (config : DatabaseConfig) (feature : string)
  : outcome bool :=
  match Feature_getattr feature with
  | Return member =>
      Return (negb (bool_decide (member ∈ disable_features config)))
  | Raise e => Raise e
  end.

(** ** The template loop *)

(** What [generate] calls outside this file.  jinja2's environment gives the
    template names and loads a template by name; [resolve_template_path] and
    [render_template] are the generator's own helpers, and either may raise.
    The answers depend on the name asked for only: writing the rendered
    files into the working directory leaves [templates/] as it is. *)
Record World : Type := {
  cwd : Path;
  list_templates : list string;
  get_template : string → outcome unit;
  resolve_template_path : Path → string → outcome Path;
  render_template : Path → string → DatabaseConfig → Path → outcome unit
}.

(** The parameter bag: [partial(has_feature, config)] and [config]
    ([raise_err] is the same imported function in every call). *)
Record Params : Type := {
  params_has_feature : string → outcome bool;
  params_config : DatabaseConfig
}.

(** The calls that [generate] makes on the environment, in order. *)
Inductive event : Type :=
| ListTemplates
| GetTemplate (name : string)
| RenderTemplate (output_dir : Path) (template : string) (params : Params)
    (file : Path).

Definition emit (e : event) : M (list event) unit := modify (λ t, t ++ [e]).

Definition env_list_templates (w : World) : M (list event) (list string) :=
  emit ListTemplates ;;; ret (list_templates w).

Definition env_get_template (w : World) (name : string)
  : M (list event) unit :=
  emit (GetTemplate name) ;;; lift (get_template w name).

Definition call_render_template (w : World) (output_dir : Path)
    (template : string) (params : Params) (file : Path)
  : M (list event) unit :=
  emit (RenderTemplate output_dir template params file) ;;;
  lift (render_template w output_dir template (params_config params) file).

(** The [if]/[elif]/[else] of the loop body: [Some file] when control
    reaches the [render_template] call below it, [None] for [continue]. *)
Definition select_template (w : World) (target : string)
    (disabled : gset Feature) (template : string)
  : M (list event) (option Path) :=
  if startswith template "base" then
    let name := replace1 "base" target template in
    try_except (env_get_template w name) (λ probe,
      match probe with
      | Raise (TemplateNotFound _) =>
          file <- lift (resolve_template_path w (cwd w) name) ;;
          match TEMPLATE_TO_FEATURE !! template with
          | Some feature =>
              if bool_decide (feature ∈ disabled) then ret None
              else ret (Some file)
          | None => ret (Some file)
          end
      | Raise e => raise e
      | Return _ => ret None
      end)
  else if startswith template target then
    file <- lift (resolve_template_path w (cwd w) template) ;;
    ret (Some file)
  else ret None.

Definition generate_template (w : World) (target : string)
    (config : DatabaseConfig) (output_dir : Path) (params : Params)
    (template : string) : M (list event) unit :=
  selected <- select_template w target (disable_features config) template ;;
  match selected with
  | None => ret tt
  | Some file => call_render_template w output_dir template params file
  end.

Definition generate (w : World) (target : string) : M (list event) unit :=
  match CONFIG !! target with
  | None => raise (RuntimeError ("No database config for " +:+ target))
  | Some config =>
      let output_dir := cwd w in
      let params := {| params_has_feature := has_feature config;
                       params_config := config |} in
      templates <- env_list_templates w ;;
      for_each templates (generate_template w target config output_dir params)
  end.

(** [render_template] was called for [template]. *)
Definition rendered (template : string) (t : list event) : Prop :=
  ∃ output_dir params file,
    RenderTemplate output_dir template params file ∈ t.

(** The branch of the loop body that leads [template] to the
    [render_template] call, read off the world: a base template whose
    override is reported missing and whose feature, if it has one, is not
    disabled; or a template of the target. *)
Definition selects (w : World) (target : string) (disabled : gset Feature)
    (template : string) : Prop :=
  if startswith template "base" then
    (∃ n, get_template w (replace1 "base" target template)
          = Raise (TemplateNotFound n)) ∧
    (∀ feature, TEMPLATE_TO_FEATURE !! template = Some feature →
                feature ∉ disabled)
  else startswith template target = true.

(** The [databases] session: inside [databases/], which is the [cwd] of the
    world, [generate] for the one target and then for the other. *)
Definition databases (w : World) : M (list event) unit :=
  generate w "postgresql" ;;; generate w "sqlite".

(** The templates that [render_template] was called for, in the order of
    the calls. *)
Definition rendered_names (t : list event) : list string :=
  omap (λ e, match e with
             | RenderTemplate _ template _ _ => Some template
             | _ => None
             end) t.

(** The name under which the loop body looks up the output file of a
    template that it renders. *)
Definition output_name (target template : string) : string :=
  if startswith template "base" then replace1 "base" target template
  else template.

End Noxfile.

(** * src/prisma/_config.py *)

Module PrismaConfig.

(** ** Values and the outside world *)

(** The Python values that reach the settings classes: what a TOML document
    holds, what the environment holds (strings) and what [dict()] gives
    back (strings, paths, [None]).  [VScalar] stands for the TOML values
    that are neither strings nor tables (numbers, booleans, dates, arrays);
    it carries the text that pydantic's [str] validator makes of the value,
    or [None] when the validator rejects it. *)
#[warnings="-register-all"]
Inductive value : Type :=
| VNone
| VStr (s : string)
| VPath (p : Path)
| VScalar (as_str : option string)
| VTable (t : gmap string value).

(** What is found at a path: nothing ([exists()] is false), something that
    [read_text] or [tomlkit.loads] cannot deliver, or a TOML document. *)
Inductive file : Type :=
| Missing
| Unreadable (e : exn)
| Document (doc : gmap string value).

(** [environ] is the process environment as the settings source reads it:
    it matches variable names without regard to case, so the names are kept
    here in their upper-case spelling. *)
Record World : Type := {
  environ : gmap string string;
  files : Path → file;
  gettempdir : string
}.

(** [d.get(key, default)]; only mappings have the method. *)
Definition dict_get (d : value) (key : string) (default : value)
  : outcome value :=
  match d with
  | VTable t => Return (from_option id default (t !! key))
  | _ => Raise (AttributeError "get")
  end.

(** ** The settings classes *)

(** The five fields.  [Config] re-declares [binary_cache_dir] at the type
    [Path]; the other fields are inherited, so the two classes are the same
    record at two types of cache directory. *)
Record Settings (C : Type) : Type := {
  prisma_version : string;
  engine_version : string;
  prisma_url : string;
  engine_url : string;
  binary_cache_dir : C
}.
Arguments prisma_version {C} _.
Arguments engine_version {C} _.
Arguments prisma_url {C} _.
Arguments engine_url {C} _.
Arguments binary_cache_dir {C} _.

Definition DefaultConfig : Type := Settings (option Path).
Definition Config : Type := Settings Path.

(** The environment variable of each field: the [env=] of its [Field], and
    the name of the field itself where the declaration gives none.  That is
    the case of [prisma_version], and of [binary_cache_dir] in [Config]:
    pydantic builds the field of a class from the declaration in that
    class, and [Config] declares [binary_cache_dir: Path] without the
    [Field(env=...)] that [DefaultConfig] gave it. *)
Definition DefaultConfig_env : list (string * string) :=
  [ ("prisma_version", "PRISMA_VERSION");
    ("engine_version", "PRISMA_ENGINE_VERSION");
    ("prisma_url", "PRISMA_CLI_URL");
    ("engine_url", "PRISMA_ENGINE_URL");
    ("binary_cache_dir", "PRISMA_BINARY_CACHE_DIR") ].

Definition Config_env : list (string * string) :=
  [ ("prisma_version", "PRISMA_VERSION");
    ("engine_version", "PRISMA_ENGINE_VERSION");
    ("prisma_url", "PRISMA_CLI_URL");
    ("engine_url", "PRISMA_ENGINE_URL");
    ("binary_cache_dir", "BINARY_CACHE_DIR") ].

(** The three sources that pydantic hands to [customise_sources].  The
    environment source gives, for each field, the variable bound to it. *)
Definition env_settings (names : list (string * string)) (w : World)
  : gmap string value :=
  list_to_map
    (omap (λ '(field, var), (λ x, (field, VStr x)) <$> environ w !! var)
       names).

(** No [secrets_dir] is configured, so the secrets source has nothing. *)
Definition file_secret_settings : gmap string value := ∅.

(** [customise_sources]: the sources in the order of their priority. *)
Definition customise_sources (init_settings env_settings file_secret_settings
    : gmap string value) : list (gmap string value) :=
  [env_settings; init_settings; file_secret_settings].

(** pydantic merges the sources it was given from the last to the first, so
    that an earlier source overrides a later one ([∪] keeps the left entry). *)
Definition build_values (sources : list (gmap string value))
  : gmap string value :=
  foldr (∪) ∅ sources.

Definition settings_values (names : list (string * string)) (w : World)
    (init : gmap string value) : gmap string value :=
  build_values
    (customise_sources init (env_settings names w) file_secret_settings).

(** Field validation.  Validation fails if any field is rejected; the error
    here names the first such field in declaration order. *)
Definition str_validator (field : string) (v : value) : outcome string :=
  match v with
  | VStr s => Return s
  | VScalar (Some s) => Return s
  | _ => Raise (ValidationError field)
  end.

Definition path_validator (field : string) (v : value) : outcome Path :=
  match v with
  | VStr s => Return (Path_of s)
  | VPath p => Return p
  | _ => Raise (ValidationError field)
  end.

Definition with_default {A} (default : A) (validate : value → outcome A)
    (v : option value) : outcome A :=
  match v with
  | None => Return default
  | Some x => validate x
  end.

Definition optional {A} (validate : value → outcome A) (v : value)
  : outcome (option A) :=
  match v with
  | VNone => Return None
  | _ => match validate v with
         | Return a => Return (Some a)
         | Raise e => Raise e
         end
  end.

Definition required {A} (field : string) (validate : value → outcome A)
    (v : option value) : outcome A :=
  match v with
  | None => Raise (ValidationError field)
  | Some x => validate x
  end.

Definition outcome_bind {A B} (o : outcome A) (k : A → outcome B)
  : outcome B :=
  match o with
  | Return a => k a
  | Raise e => Raise e
  end.

(** The defaults of the fields. *)
Definition default_prisma_version : string := "3.13.0".
Definition default_engine_version : string :=
  "efdf9b1183dddfd4258cd181a72125755215ab7b".
Definition default_prisma_url : string :=
  "https://prisma-photongo.s3-eu-west-1.amazonaws.com/prisma-cli-{version}-{platform}.gz".
Definition default_engine_url : string :=
  "https://binaries.prisma.sh/all_commits/{0}/{1}/{2}.gz".

(** The fields that both classes declare alike, then the cache directory
    checked by [cache]; keys that name no field are ignored
    ([Extra.ignore]). *)
Definition validate_fields {C} (cache : option value → outcome C)
    (values : gmap string value) : outcome (Settings C) :=
  outcome_bind (with_default default_prisma_version
                  (str_validator "prisma_version")
                  (values !! "prisma_version")) (λ pv,
  outcome_bind (with_default default_engine_version
                  (str_validator "engine_version")
                  (values !! "engine_version")) (λ ev,
  outcome_bind (with_default
                  default_prisma_url
                  (str_validator "prisma_url") (values !! "prisma_url")) (λ pu,
  outcome_bind (with_default
                  default_engine_url
                  (str_validator "engine_url") (values !! "engine_url")) (λ eu,
  outcome_bind (cache (values !! "binary_cache_dir")) (λ dir,
  Return {| prisma_version := pv; engine_version := ev; prisma_url := pu;
            engine_url := eu; binary_cache_dir := dir |}))))).

Definition DefaultConfig_validate : gmap string value → outcome DefaultConfig :=
  validate_fields
    (with_default None (optional (path_validator "binary_cache_dir"))).

Definition Config_validate : gmap string value → outcome Config :=
  validate_fields
    (required "binary_cache_dir" (path_validator "binary_cache_dir")).

(** [config.dict()]. *)
Definition Settings_dict {C} (cache : C → value) (c : Settings C)
  : gmap string value :=
  {[ "prisma_version" := VStr (prisma_version c);
     "engine_version" := VStr (engine_version c);
     "prisma_url" := VStr (prisma_url c);
     "engine_url" := VStr (engine_url c);
     "binary_cache_dir" := cache (binary_cache_dir c) ]}.

Definition DefaultConfig_dict : DefaultConfig → gmap string value :=
  Settings_dict (from_option VPath VNone).

Definition Config_dict : Config → gmap string value := Settings_dict VPath.

(** The same settings with another cache directory. *)
Definition with_binary_cache_dir {C D} (c : Settings C) (dir : D)
  : Settings D :=
  {| prisma_version := prisma_version c; engine_version := engine_version c;
     prisma_url := prisma_url c; engine_url := engine_url c;
     binary_cache_dir := dir |}.

(** A [Config] seen as the [DefaultConfig] it inherits from. *)
Definition Config_as_base (c : Config) : DefaultConfig :=
  with_binary_cache_dir c (Some (binary_cache_dir c)).

(** ** Objects *)

(** Settings objects live in a heap and are known by their address, so that
    assignment to a field and object identity can be told. *)
Inductive object : Type :=
| DefaultConfigObject (d : DefaultConfig)
| ConfigObject (c : Config).

(** The heap, the store of [lru_cache] (a proxy is keyed by its identity),
    and the list of proxies on whose behalf the cached function was run. *)
Record state : Type := {
  heap : list object;
  lru_cache : gmap nat nat;
  load_calls : list nat
}.

Definition initial : state :=
  {| heap := []; lru_cache := ∅; load_calls := [] |}.

Definition set_heap (f : list object → list object) (st : state) : state :=
  {| heap := f (heap st); lru_cache := lru_cache st;
     load_calls := load_calls st |}.

(** A new object: its address is the next free one. *)
Definition alloc (o : object) : M state nat :=
  λ st, (Return (length (heap st)), set_heap (λ h, h ++ [o]) st).

(** The fields of the object at [r], as a [DefaultConfig] sees them. *)
Definition read_base (r : nat) : M state DefaultConfig :=
  st <- get ;;
  match heap st !! r with
  | Some (DefaultConfigObject d) => ret d
  | Some (ConfigObject c) => ret (Config_as_base c)
  | None => raise (OtherError "no such object")
  end.

(** [config.binary_cache_dir = p] on the object at [r]. *)
Definition set_binary_cache_dir (r : nat) (p : Path) : M state unit :=
  modify (set_heap (λ h,
    match h !! r with
    | Some (DefaultConfigObject d) =>
        <[r := DefaultConfigObject (with_binary_cache_dir d (Some p))]> h
    | Some (ConfigObject c) =>
        <[r := ConfigObject (with_binary_cache_dir c p)]> h
    | None => h
    end)).

(** [cls.parse_obj(obj)]: [obj] has to be a mapping; its entries are the
    constructor arguments, hence the init source.  First what the class
    validates, then the object made of it.  Two corners are left to the
    statements that use these definitions: a mapping with one of the
    constructor's own keywords as a key (see [no_reserved_keys] below), and
    a value that is no mapping but that [dict()] accepts all the same, as
    the empty string and an array of pairs are. *)
Definition DefaultConfig_of_obj (w : World) (obj : value)
  : outcome DefaultConfig :=
  match obj with
  | VTable init =>
      DefaultConfig_validate (settings_values DefaultConfig_env w init)
  | _ => Raise (ValidationError "__root__")
  end.

Definition Config_of_obj (w : World) (obj : value) : outcome Config :=
  match obj with
  | VTable init => Config_validate (settings_values Config_env w init)
  | _ => Raise (ValidationError "__root__")
  end.

Definition DefaultConfig_parse_obj (w : World) (obj : value) : M state nat :=
  d <- lift (DefaultConfig_of_obj w obj) ;;
  alloc (DefaultConfigObject d).

Definition Config_parse_obj (w : World) (obj : value) : M state nat :=
  c <- lift (Config_of_obj w obj) ;;
  alloc (ConfigObject c).

(** The directory that [from_base] makes up for an engine version. *)
Definition engines_dir (w : World) (engine_version : string) : Path :=
  Path_of (gettempdir w) // "prisma" // "binaries" // "engines"
    // engine_version.

(** [Config.from_base(config)]. *)
Definition from_base (w : World) (config : nat) : M state nat :=
  d <- read_base config ;;
  match binary_cache_dir d with
  | None => set_binary_cache_dir config (engines_dir w (engine_version d))
  | Some _ => ret tt
  end ;;;
  d' <- read_base config ;;
  Config_parse_obj w (VTable (DefaultConfig_dict d')).

(** What [Config.load] takes from the project file: the table under
    [tool], then [prisma], with the empty mapping where a key or the file
    itself is absent. *)
Definition read_project (w : World) (path : Path) : outcome value :=
  match files w path with
  | Document doc =>
      outcome_bind (dict_get (VTable doc) "tool" (VTable ∅)) (λ tool,
      dict_get tool "prisma" (VTable ∅))
  | Unreadable e => Raise e
  | Missing => Return (VTable ∅)
  end.

(** [Config.load(path)]. *)
Definition load (w : World) (path : option Path) : M state nat :=
  let path := from_option id (Path_of "pyproject.toml") path in
  config <- lift (read_project w path) ;;
  base <- DefaultConfig_parse_obj w config ;;
  from_base w base.

(** The path that [load] reads when it is given [path]. *)
Definition project_path (path : option Path) : Path :=
  from_option id (Path_of "pyproject.toml") path.

(** The text that a mapping holds under a key, if it holds text there. *)
Definition str_at (t : gmap string value) (key : string) : option string :=
  match t !! key with
  | Some (VStr s) => Some s
  | _ => None
  end.

(** The precedence as the specification words it: the environment, then the
    constructor arguments, then the [tool.prisma] table of the project
    file.  It is compared below with [customise_sources]. *)
Definition spec_sources (w : World) (init : gmap string value)
  : list (gmap string value) :=
  [ env_settings DefaultConfig_env w; init;
    match read_project w (project_path None) with
    | Return (VTable t) => t
    | _ => ∅
    end ].

(** ** LazyConfigProxy *)

(** The two things that the [lru_cache] wrapper writes: that the cached
    function is run for [self], and what it returned. *)
Definition log_load (self : nat) (st : state) : state :=
  {| heap := heap st; lru_cache := lru_cache st;
     load_calls := load_calls st ++ [self] |}.

Definition store_result (self r : nat) (st : state) : state :=
  {| heap := heap st; lru_cache := <[self := r]> (lru_cache st);
     load_calls := load_calls st |}.

(** [__get_proxied] under [lru_cache(maxsize=None)]: a hit gives the stored
    result; a miss runs [Config.load()] and stores what it returns, and
    stores nothing when it raises. *)
Definition get_proxied (w : World) (self : nat) : M state nat :=
  st <- get ;;
  match lru_cache st !! self with
  | Some r => ret r
  | None =>
      modify (log_load self) ;;;
      r <- load w None ;;
      modify (store_result self r) ;;;
      ret r
  end.

(** [getattr(obj, attr)] for the fields of a settings object. *)
Definition object_getattr (o : object) (attr : string) : outcome value :=
  let d := match o with
           | DefaultConfigObject d => d
           | ConfigObject c => Config_as_base c
           end in
  match DefaultConfig_dict d !! attr with
  | Some v => Return v
  | None => Raise (AttributeError attr)
  end.

(** [LazyConfigProxy.__getattr__(self, attr)]. *)
Definition proxy_getattr (w : World) (self : nat) (attr : string)
  : M state value :=
  r <- get_proxied w self ;;
  st <- get ;;
  match heap st !! r with
  | Some o => lift (object_getattr o attr)
  | None => raise (OtherError "no such object")
  end.

(** How many times [Config.load] was run on behalf of the proxy [self]. *)
Definition loads_for (self : nat) (st : state) : nat :=
  length (filter (λ p, p = self) (load_calls st)).

(** Every stored result is the address of a [Config]. *)
Definition cache_valid (st : state) : Prop :=
  ∀ self r, lru_cache st !! self = Some r →
            ∃ c, heap st !! r = Some (ConfigObject c).

(** [__repr__] and [__str__]: [repr] and [str] of the proxied object.  What
    the two functions give for a settings object is pydantic's business and
    is taken as given. *)
Definition proxy_repr (repr : object → string) (w : World) (self : nat)
  : M state string :=
  r <- get_proxied w self ;;
  st <- get ;;
  match heap st !! r with
  | Some o => ret (repr o)
  | None => raise (OtherError "no such object")
  end.

Definition proxy_str (str : object → string) (w : World) (self : nat)
  : M state string :=
  r <- get_proxied w self ;;
  st <- get ;;
  match heap st !! r with
  | Some o => ret (str o)
  | None => raise (OtherError "no such object")
  end.

(** No two proxies have the same stored result. *)
Definition cache_injective (st : state) : Prop :=
  ∀ p q r, lru_cache st !! p = Some r → lru_cache st !! q = Some r → p = q.

(** The names of the fields. *)
Definition field_names : list string :=
  [ "prisma_version"; "engine_version"; "prisma_url"; "engine_url";
    "binary_cache_dir" ].

(** pydantic's constructor keeps some keywords for itself ([_env_file],
    [_env_file_encoding], [_env_nested_delimiter], [_secrets_dir]): given
    as keys of the mapping they are not settings but switch on a dotenv
    file or a secrets directory.  All of them start with an underscore.  A
    table without such keys reaches the class as constructor arguments and
    as nothing else, which is the case that [DefaultConfig_of_obj]
    describes. *)
Definition no_reserved_keys (t : gmap string value) : Prop :=
  ∀ k v, t !! k = Some v → startswith k "_" = false.

(** A [Config] as the environment overrides it when it is validated. *)
Definition Config_under (w : World) (c : Config) : Config :=
  {| prisma_version :=
       default (prisma_version c) (environ w !! "PRISMA_VERSION");
     engine_version :=
       default (engine_version c) (environ w !! "PRISMA_ENGINE_VERSION");
     prisma_url := default (prisma_url c) (environ w !! "PRISMA_CLI_URL");
     engine_url := default (engine_url c) (environ w !! "PRISMA_ENGINE_URL");
     binary_cache_dir :=
       from_option Path_of (binary_cache_dir c)
         (environ w !! "BINARY_CACHE_DIR") |}.

(** A run of attribute accesses, each in the world of its moment; an access
    that raises is survived by the caller. *)
Definition run_accesses (accesses : list (World * nat * string)) (st : state)
  : state :=
  foldl (λ st '(w, self, attr), snd (proxy_getattr w self attr st)) st accesses.

End PrismaConfig.

(** * Sample worlds *)

Module Samples.

(** A [databases/] directory with a gated base template, a base template
    that [postgresql] overrides, and one template for each target; the
    helpers behave as the generator's do and rendering succeeds. *)
Definition templates_dir : Noxfile.World := {|
  Noxfile.cwd := Path_of "/repo/databases";
  Noxfile.list_templates :=
    [ "base/test_enums.py.jinja"; "base/test_find.py.jinja";
      "postgresql/test_find.py.jinja"; "sqlite/test_raw.py.jinja";
      "README.md" ];
  Noxfile.get_template := λ name,
    if bool_decide (name ∈ [ "base/test_enums.py.jinja";
                             "base/test_find.py.jinja";
                             "postgresql/test_find.py.jinja";
                             "sqlite/test_raw.py.jinja"; "README.md" ])
    then Return tt else Raise (TemplateNotFound name);
  Noxfile.resolve_template_path := λ rootdir name, Return (rootdir // name);
  Noxfile.render_template := λ _ _ _ _, Return tt
|}.

(** The parameter bag that [generate] builds for ["sqlite"]. *)
Definition sqlite_config : Noxfile.DatabaseConfig := {|
  Noxfile.disable_features :=
    {[ Noxfile.enum; Noxfile.json; Noxfile.arrays; Noxfile.create_many;
       Noxfile.case_sensitivity ]};
  Noxfile.defaults := {| Noxfile.case_sensitive_filtering := false |}
|}.

Definition sqlite_params : Noxfile.Params := {|
  Noxfile.params_has_feature := Noxfile.has_feature sqlite_config;
  Noxfile.params_config := sqlite_config
|}.

(** The parameter bag that [generate] builds for ["postgresql"]. *)
Definition postgresql_config : Noxfile.DatabaseConfig := {|
  Noxfile.disable_features := ∅;
  Noxfile.defaults := {| Noxfile.case_sensitive_filtering := true |}
|}.

Definition postgresql_params : Noxfile.Params := {|
  Noxfile.params_has_feature := Noxfile.has_feature postgresql_config;
  Noxfile.params_config := postgresql_config
|}.

(** A template directory whose loader chokes on a template (a syntax
    error in an override, say). *)
Definition broken_loader : Noxfile.World := {|
  Noxfile.cwd := Path_of "/repo/databases";
  Noxfile.list_templates := [ "base/test_find.py.jinja" ];
  Noxfile.get_template := λ _, Raise (OtherError "TemplateSyntaxError");
  Noxfile.resolve_template_path := λ rootdir name, Return (rootdir // name);
  Noxfile.render_template := λ _ _ _ _, Return tt
|}.

(** No project file, an empty environment. *)
Definition bare : PrismaConfig.World := {|
  PrismaConfig.environ := ∅;
  PrismaConfig.files := λ _, PrismaConfig.Missing;
  PrismaConfig.gettempdir := "/tmp"
|}.

(** A project file that sets the engine version, an environment that sets
    it too. *)
Definition project_file : gmap string PrismaConfig.value :=
  {[ "tool" := PrismaConfig.VTable
       {[ "prisma" := PrismaConfig.VTable
            {[ "engine_version" := PrismaConfig.VStr "Y";
               "prisma_url" :=
                 PrismaConfig.VStr "https://example.org/cli.gz" ]} ]} ]}.

Definition with_project (environ : gmap string string) : PrismaConfig.World := {|
  PrismaConfig.environ := environ;
  PrismaConfig.files := λ path,
    if decide (path = Path_of "pyproject.toml")
    then PrismaConfig.Document project_file else PrismaConfig.Missing;
  PrismaConfig.gettempdir := "/tmp"
|}.

(** The table of that file, as [load] finds it. *)
Definition project_table : gmap string PrismaConfig.value :=
  {[ "engine_version" := PrismaConfig.VStr "Y";
     "prisma_url" := PrismaConfig.VStr "https://example.org/cli.gz" ]}.

(** No project file; a variable named after the field [binary_cache_dir],
    and none named [PRISMA_BINARY_CACHE_DIR]. *)
Definition unprefixed_variable : PrismaConfig.World := {|
  PrismaConfig.environ := {[ "BINARY_CACHE_DIR" := "/elsewhere" ]};
  PrismaConfig.files := λ _, PrismaConfig.Missing;
  PrismaConfig.gettempdir := "/tmp"
|}.

(** A [DefaultConfig] without a cache directory, alone in the heap. *)
Definition plain_settings : PrismaConfig.DefaultConfig := {|
  PrismaConfig.prisma_version := "3.13.0";
  PrismaConfig.engine_version := "abc";
  PrismaConfig.prisma_url := "https://example.org/cli.gz";
  PrismaConfig.engine_url := "https://example.org/engine.gz";
  PrismaConfig.binary_cache_dir := None
|}.

Definition one_object : PrismaConfig.state := {|
  PrismaConfig.heap := [PrismaConfig.DefaultConfigObject plain_settings];
  PrismaConfig.lru_cache := ∅;
  PrismaConfig.load_calls := []
|}.

(** A project file that has other tools' tables and none for prisma. *)
Definition other_tools : PrismaConfig.World := {|
  PrismaConfig.environ := {[ "PRISMA_CLI_URL" := "https://mirror/cli.gz" ]};
  PrismaConfig.files := λ _,
    PrismaConfig.Document
      {[ "tool" := PrismaConfig.VTable
           {[ "black" := PrismaConfig.VTable ∅ ]} ]};
  PrismaConfig.gettempdir := "/tmp"
|}.

(** A project file in which [tool] is a string. *)
Definition tool_is_text : PrismaConfig.World := {|
  PrismaConfig.environ := ∅;
  PrismaConfig.files := λ _,
    PrismaConfig.Document {[ "tool" := PrismaConfig.VStr "prisma" ]};
  PrismaConfig.gettempdir := "/tmp"
|}.

(** A project file in which [engine_version] is a table. *)
Definition nested_engine_version : PrismaConfig.World := {|
  PrismaConfig.environ := ∅;
  PrismaConfig.files := λ _,
    PrismaConfig.Document
      {[ "tool" := PrismaConfig.VTable
           {[ "prisma" := PrismaConfig.VTable
                {[ "engine_version" := PrismaConfig.VTable ∅ ]} ]} ]};
  PrismaConfig.gettempdir := "/tmp"
|}.

(** A [Config] alone in the heap. *)
Definition resolved_settings : PrismaConfig.Config := {|
  PrismaConfig.prisma_version := "3.13.0";
  PrismaConfig.engine_version := "abc";
  PrismaConfig.prisma_url := "https://example.org/cli.gz";
  PrismaConfig.engine_url := "https://example.org/engine.gz";
  PrismaConfig.binary_cache_dir := Path_of "/var/cache/prisma"
|}.

Definition one_config : PrismaConfig.state := {|
  PrismaConfig.heap := [PrismaConfig.ConfigObject resolved_settings];
  PrismaConfig.lru_cache := ∅;
  PrismaConfig.load_calls := []
|}.

(** A [DefaultConfig] whose engine version is written as a rooted path. *)
Definition rooted_settings : PrismaConfig.DefaultConfig := {|
  PrismaConfig.prisma_version := "3.13.0";
  PrismaConfig.engine_version := "/srv/engines";
  PrismaConfig.prisma_url := "https://example.org/cli.gz";
  PrismaConfig.engine_url := "https://example.org/engine.gz";
  PrismaConfig.binary_cache_dir := None
|}.

Definition rooted_version : PrismaConfig.state := {|
  PrismaConfig.heap := [PrismaConfig.DefaultConfigObject rooted_settings];
  PrismaConfig.lru_cache := ∅;
  PrismaConfig.load_calls := []
|}.

(** A project file that cannot be parsed. *)
Definition broken_project : PrismaConfig.World := {|
  PrismaConfig.environ := ∅;
  PrismaConfig.files := λ _,
    PrismaConfig.Unreadable (OtherError "tomlkit.exceptions.ParseError");
  PrismaConfig.gettempdir := "/tmp"
|}.

End Samples.

(** * Properties of noxfile.py *)

Module NoxfileProps.
Import Noxfile.

(** ** Sequencing *)

Section for_each.
Context {St A : Type} (body : A → M St unit).

(** What every iteration keeps, the loop keeps. *)
Lemma for_each_preserves (P : St → Prop) (xs : list A) (s : St) :
  P s →
  (∀ x s', x ∈ xs → P s' → P (snd (body x s'))) →
  P (snd (for_each xs body s)).
Proof.
  revert s. induction xs as [|x xs IH]; intros s Hs Hbody; [done|].
  cbn [for_each]. unfold bind.
  pose proof (Hbody x s ltac:(left) Hs) as Hx.
  destruct (body x s) as [[[]|e] s1]; cbn in Hx |- *; [|done].
  apply IH; [done|]. intros y s' Hy. apply Hbody. by right.
Qed.

(** A loop that returns has run its body, to the end, on every element. *)
Lemma for_each_reaches (R : relation St) `{!PreOrder R} (xs : list A)
    (x : A) (s s' : St) :
  (∀ y s0, R s0 (snd (body y s0))) →
  for_each xs body s = (Return tt, s') →
  x ∈ xs →
  ∃ sa sb, body x sa = (Return tt, sb) ∧ R s sa ∧ R sb s'.
Proof.
  intros Hmono. revert s. induction xs as [|y xs IH]; intros s Hrun Hx.
  { by apply elem_of_nil in Hx. }
  cbn [for_each] in Hrun. unfold bind in Hrun.
  pose proof (Hmono y s) as Hy.
  destruct (body y s) as [[[]|e] s1] eqn:Hbody; cbn in Hy; [|done].
  assert (R s1 s') as Hrest.
  { clear -Hrun Hmono PreOrder0. revert s1 Hrun.
    induction xs as [|z xs IHxs]; intros s1 Hrun.
    - cbn in Hrun. by injection Hrun as ->.
    - cbn [for_each] in Hrun. unfold bind in Hrun.
      pose proof (Hmono z s1) as Hz.
      destruct (body z s1) as [[[]|e] s2]; cbn in Hz; [|done].
      etrans; [done|]. by apply IHxs. }
  apply elem_of_cons in Hx as [->|Hx].
  - exists s, s1. by split_and!.
  - destruct (IH s1 Hrun Hx) as (sa & sb & ? & ? & ?).
    exists sa, sb. split_and!; [done| |done]. by etrans.
Qed.
End for_each.

Lemma append_empty_r (s : string) : s +:+ "" = s.
Proof.
  induction s as [|c s IH]; [done|].
  change (String c (s +:+ "") = String c s). by rewrite IH.
Qed.

(** ** One iteration *)

Ltac unfold_body :=
  unfold generate_template, select_template, call_render_template,
    env_get_template, emit, bind, try_except, lift, modify, ret, raise.

Lemma rendered_snoc (template : string) (t : list event) (e : event) :
  rendered template (t ++ [e]) ↔
  rendered template t ∨
  ∃ output_dir params file,
    e = RenderTemplate output_dir template params file.
Proof.
  unfold rendered. split.
  - intros (o & p & f & Hin).
    apply elem_of_app in Hin as [Hin|Hin]; [left; eauto|].
    apply list_elem_of_singleton in Hin. right; eauto.
  - intros [(o & p & f & Hin)|(o & p & f & ->)]; exists o, p, f;
      apply elem_of_app; [by left|right]. by apply list_elem_of_singleton.
Qed.

Lemma rendered_mono (template : string) (t t' : list event) :
  t `prefix_of` t' → rendered template t → rendered template t'.
Proof.
  intros [k ->] (o & p & f & Hin). exists o, p, f.
  apply elem_of_app. by left.
Qed.

(** An iteration only adds to the record of calls. *)
Lemma generate_template_prefix w target config output_dir params x t :
  t `prefix_of`
    snd (generate_template w target config output_dir params x t).
Proof.
  unfold_body.
  repeat (case_match; simplify_eq/=);
    rewrite <-?(assoc_L (++)); first [done | by apply prefix_app_r].
Qed.

(** If an iteration records a call of [render_template] for [template],
    the iteration is the one of [template] and its branch selected it. *)
Lemma generate_template_rendered w target config output_dir params x t
    template :
  rendered template
    (snd (generate_template w target config output_dir params x t)) →
  rendered template t ∨
  (x = template ∧ selects w target (disable_features config) template).
Proof.
  unfold_body. intros Hr.
  repeat (case_match; simplify_eq/=);
    repeat (apply rendered_snoc in Hr as [Hr|(? & ? & ? & ?)];
            simplify_eq/=);
    try (by left); right; (split; [done|]); unfold selects;
    repeat match goal with H : startswith _ _ = _ |- _ => rewrite H end;
    try done.
  - split; [eauto|]. intros feature ?. simplify_eq. by case_bool_decide.
  - split; [eauto|]. intros feature ?. simplify_eq.
Qed.

(** Conversely, an iteration that returns has rendered what its branch
    selects. *)
Lemma generate_template_selected w target config output_dir params x t t' :
  generate_template w target config output_dir params x t
    = (Return tt, t') →
  selects w target (disable_features config) x →
  rendered x t'.
Proof.
  unfold selects. unfold_body. intros Hrun Hsel.
  repeat (case_match; simplify_eq/=);
    try (apply rendered_snoc; right; eauto).
  all: destruct Hsel as [[n Hn] Hgate]; simplify_eq.
  exfalso. case_bool_decide; [|done]. by eapply Hgate.
Qed.

(** ** The whole run *)

Lemma generate_rendered w target t template :
  rendered template (snd (generate w target t)) →
  rendered template t ∨
  ∃ config, CONFIG !! target = Some config ∧ template ∈ list_templates w ∧
            selects w target (disable_features config) template.
Proof.
  unfold generate. destruct (CONFIG !! target) as [config|] eqn:Hc;
    [|by left].
  unfold env_list_templates, emit, bind, modify, ret. cbn. intros Hr.
  enough (rendered template t ∨
          template ∈ list_templates w ∧
          selects w target (disable_features config) template)
    as [?|[??]]; [by left|right; eauto|].
  revert Hr. apply (for_each_preserves _ (λ s,
    rendered template s →
    rendered template t ∨
    template ∈ list_templates w ∧
    selects w target (disable_features config) template)).
  - intros Hr. apply rendered_snoc in Hr as [?|(? & ? & ? & ?)];
      [by left|done].
  - intros x s Hx IH Hr.
    apply generate_template_rendered in Hr as [Hr|[-> Hsel]]; [auto|].
    by right.
Qed.

Lemma generate_selected w target config template t :
  CONFIG !! target = Some config →
  generate w target [] = (Return tt, t) →
  template ∈ list_templates w →
  selects w target (disable_features config) template →
  rendered template t.
Proof.
  unfold generate. intros -> Hrun Hin Hsel.
  unfold env_list_templates, emit, bind, modify, ret in Hrun. cbn in Hrun.
  eapply (for_each_reaches _ prefix) in Hrun
    as (sa & sb & Hbody & _ & Hsb); [| |done].
  - eapply rendered_mono; [done|].
    by eapply generate_template_selected.
  - intros. apply generate_template_prefix.
Qed.

(** ** The two tables *)

Lemma CONFIG_targets target config :
  CONFIG !! target = Some config →
  target = "postgresql" ∨ target = "sqlite".
Proof.
  unfold CONFIG. intros H.
  apply lookup_insert_Some in H as [[<- _]|[_ H]]; [by left|].
  apply lookup_singleton_Some in H as [<- _]. by right.
Qed.

Lemma TEMPLATE_TO_FEATURE_base template feature :
  TEMPLATE_TO_FEATURE !! template = Some feature →
  startswith template "base" = true.
Proof.
  unfold TEMPLATE_TO_FEATURE. intros H.
  repeat (apply lookup_insert_Some in H as [[<- _]|[_ H]]; [done|]).
  by apply lookup_singleton_Some in H as [<- _].
Qed.

Lemma startswith_cons (c : ascii) (p s : string) :
  startswith s (String c p) = true →
  ∃ s', s = String c s' ∧ startswith s' p = true.
Proof.
  unfold startswith. destruct s as [|c' s']; cbn; [done|].
  destruct (ascii_dec c c') as [->|]; [eauto|done].
Qed.

(** No target of the registry has a name that starts like the base
    namespace, so the first test of the loop body never takes a template
    of the target. *)
Lemma target_template_not_base target config template :
  CONFIG !! target = Some config →
  startswith template target = true →
  startswith template "base" = false.
Proof.
  intros Hc Hs. apply CONFIG_targets in Hc as [->| ->];
    apply startswith_cons in Hs as (s' & -> & _); done.
Qed.

(** A loop whose body always returns, returns. *)
Lemma for_each_returns {St A} (body : A → M St unit) (xs : list A) (s : St) :
  (∀ x s0, x ∈ xs → ∃ s1, body x s0 = (Return tt, s1)) →
  ∃ s', for_each xs body s = (Return tt, s').
Proof.
  revert s. induction xs as [|x xs IH]; intros s Hbody; [by eexists|].
  cbn [for_each]. unfold bind.
  destruct (Hbody x s ltac:(left)) as [s1 ->].
  apply IH. intros y s0 Hy. apply Hbody. by right.
Qed.

(** ** The registry *)

(** C7.  The registry has an entry for ["postgresql"] that disables no
    feature, and an entry for ["sqlite"] that disables exactly [enum],
    [json], [arrays], [create_many] and [case_sensitivity] (that is, every
    feature) and whose defaults set [case_sensitive_filtering] to false. *)
Theorem registry_lookup :
  (∃ config, CONFIG !! "postgresql" = Some config ∧
             disable_features config = ∅) ∧
  (∃ config, CONFIG !! "sqlite" = Some config ∧
             disable_features config
               = list_to_set [enum; json; arrays; create_many;
                              case_sensitivity] ∧
             (∀ feature, feature ∈ disable_features config) ∧
             case_sensitive_filtering (defaults config) = false).
Proof.
  split; eexists; (split; [reflexivity|]); [done|].
  split_and!; [done| |done].
  intros []; cbn; set_solver.
Qed.

(** C3.  For every configuration and every member of [Feature], called by
    its name, [has_feature] returns a boolean, and the boolean is true
    exactly when the feature is not in the configuration's
    [disable_features].  The function is embedded without a state: its
    result is all it produces. *)
Theorem has_feature_unless_disabled (config : DatabaseConfig)
    (feature : Feature) :
  ∃ b : bool,
    has_feature config (Feature_name feature) = Return b ∧
    (b = true ↔ feature ∉ disable_features config).
Proof.
  exists (negb (bool_decide (feature ∈ disable_features config))). split.
  - destruct feature; reflexivity.
  - case_bool_decide; cbn; naive_solver.
Qed.

(** ** Unknown targets *)

(** C8.  For a target without an entry in the registry, [generate] raises
    [RuntimeError] with a message that contains the name of the target, and
    the record of calls is as it was: no template was listed, looked up or
    rendered. *)
Theorem unknown_target_raises (w : World) (target : string)
    (t : list event) :
  CONFIG !! target = None →
  ∃ msg, generate w target t = (Raise (RuntimeError msg), t) ∧
         contains msg target.
Proof.
  intros Hc. unfold generate. rewrite Hc.
  eexists. split; [reflexivity|].
  exists "No database config for ", "". by rewrite append_empty_r.
Qed.

Lemma unknown_target_raises_witness :
  ∃ msg, generate Samples.templates_dir "mysql" []
           = (Raise (RuntimeError msg), []) ∧
         contains msg "mysql".
Proof. apply (unknown_target_raises Samples.templates_dir "mysql" []). reflexivity. Defined.

(** ** Feature gating *)

(** C1.  For a target with configuration [config] and a template that
    [TEMPLATE_TO_FEATURE] maps to a feature which [config] disables,
    [generate] makes no call of [render_template] for the template. *)
Theorem disabled_feature_not_rendered (w : World) (target : string)
    (config : DatabaseConfig) (template : string) (feature : Feature) :
  CONFIG !! target = Some config →
  TEMPLATE_TO_FEATURE !! template = Some feature →
  feature ∈ disable_features config →
  ¬ rendered template (snd (generate w target [])).
Proof.
  intros Hc Hf Hd Hr.
  apply generate_rendered in Hr as [(? & ? & ? & Hin)|(c & Hc' & _ & Hsel)].
  { by apply elem_of_nil in Hin. }
  simplify_eq. unfold selects in Hsel.
  rewrite (TEMPLATE_TO_FEATURE_base _ _ Hf) in Hsel.
  destruct Hsel as [_ Hgate]. by apply (Hgate feature).
Qed.

Lemma disabled_feature_not_rendered_witness :
  ¬ rendered "base/test_enums.py.jinja"
      (snd (generate Samples.templates_dir "sqlite" [])).
Proof.
  eapply (disabled_feature_not_rendered Samples.templates_dir "sqlite" _
            "base/test_enums.py.jinja" enum).
  - reflexivity.
  - reflexivity.
  - cbn. set_solver.
Defined.

(** ** Overrides *)

(** C2.  A base template for which the template of the same name under the
    target loads is not rendered; and for a target of the registry, every
    listed template whose name starts with the target is rendered by a run
    that returns, whatever the registry disables and whether or not the
    template has a feature. *)
Theorem target_template_overrides_base (w : World) (target : string) :
  (∀ template,
     startswith template "base" = true →
     get_template w (replace1 "base" target template) = Return tt →
     ¬ rendered template (snd (generate w target []))) ∧
  (∀ config template t,
     CONFIG !! target = Some config →
     template ∈ list_templates w →
     startswith template target = true →
     generate w target [] = (Return tt, t) →
     rendered template t).
Proof.
  split.
  - intros template Hb Hget Hr.
    apply generate_rendered in Hr
      as [(? & ? & ? & Hin)|(c & _ & _ & Hsel)].
    { by apply elem_of_nil in Hin. }
    unfold selects in Hsel. rewrite Hb, Hget in Hsel.
    by destruct Hsel as [[n ?] _].
  - intros config template t Hc Hin Hs Hrun.
    eapply generate_selected; [done..|].
    unfold selects.
    by rewrite (target_template_not_base _ _ _ Hc Hs).
Qed.

Lemma target_template_overrides_base_witness :
  ¬ rendered "base/test_find.py.jinja"
      (snd (generate Samples.templates_dir "postgresql" [])) ∧
  rendered "postgresql/test_find.py.jinja"
    (snd (generate Samples.templates_dir "postgresql" [])).
Proof.
  split.
  - apply (proj1 (target_template_overrides_base Samples.templates_dir
                    "postgresql")); reflexivity.
  - eapply (proj2 (target_template_overrides_base Samples.templates_dir
                     "postgresql")).
    + reflexivity.
    + cbn. set_solver.
    + reflexivity.
    + reflexivity.
Defined.

(** ** Probing for an override *)

(** C9.  Take a world in which loading a template either succeeds or raises
    [TemplateNotFound], and in which path resolution and rendering succeed.
    Then [generate] returns for every target of the registry: no
    [TemplateNotFound] of a probe comes out of it.  And every listed base
    template whose probe raised [TemplateNotFound] went on to the feature
    test and was rendered unless its feature is disabled. *)
Theorem missing_override_is_no_error (w : World) (target : string)
    (config : DatabaseConfig) :
  CONFIG !! target = Some config →
  (∀ name, get_template w name = Return tt ∨
           ∃ n, get_template w name = Raise (TemplateNotFound n)) →
  (∀ rootdir name, ∃ file,
     resolve_template_path w rootdir name = Return file) →
  (∀ output_dir template c file,
     render_template w output_dir template c file = Return tt) →
  ∃ t, generate w target [] = (Return tt, t) ∧
       ∀ template n,
         template ∈ list_templates w →
         startswith template "base" = true →
         get_template w (replace1 "base" target template)
           = Raise (TemplateNotFound n) →
         (∀ feature, TEMPLATE_TO_FEATURE !! template = Some feature →
                     feature ∉ disable_features config) →
         rendered template t.
Proof.
  intros Hc Hget Hres Hren.
  assert (∃ t, generate w target [] = (Return tt, t)) as [t Hrun].
  { unfold generate. rewrite Hc.
    unfold env_list_templates, emit, bind, modify, ret. cbn.
    apply for_each_returns. intros x s _. unfold_body.
    destruct (startswith x "base").
    - destruct (Hget (replace1 "base" target x)) as [->|[n ->]];
        [by eexists|].
      destruct (Hres (cwd w) (replace1 "base" target x)) as [file ->].
      destruct (TEMPLATE_TO_FEATURE !! x);
        [case_bool_decide|]; rewrite ?Hren; by eexists.
    - destruct (startswith x target); [|by eexists].
      destruct (Hres (cwd w) x) as [file ->]. rewrite Hren. by eexists. }
  exists t. split; [done|].
  intros template n Hin Hb Hn Hgate.
  eapply generate_selected; [done..|].
  unfold selects. rewrite Hb. eauto.
Qed.

Lemma missing_override_is_no_error_witness :
  ∃ t, generate Samples.templates_dir "sqlite" [] = (Return tt, t) ∧
       ∀ template n,
         template ∈ Noxfile.list_templates Samples.templates_dir →
         startswith template "base" = true →
         get_template Samples.templates_dir
           (replace1 "base" "sqlite" template)
           = Raise (TemplateNotFound n) →
         (∀ feature, TEMPLATE_TO_FEATURE !! template = Some feature →
                     feature ∉ disable_features
                       {| disable_features :=
                            {[ enum; json; arrays; create_many;
                               case_sensitivity ]};
                          defaults :=
                            {| case_sensitive_filtering := false |} |}) →
         rendered template t.
Proof.
  apply (missing_override_is_no_error Samples.templates_dir "sqlite").
  - reflexivity.
  - intros name. cbn. case_bool_decide; eauto.
  - intros rootdir name. cbn. eauto.
  - reflexivity.
Defined.

(** * More about noxfile.py *)

(** ** Names of overrides *)

Lemma substring_all (s : string) :
  String.substring 0 (String.length s) s = s.
Proof. induction s as [|c s IH]; [done|]. cbn. by rewrite IH. Qed.

Lemma startswith_split (s p : string) :
  startswith s p = true →
  s = p +:+ String.substring (String.length p)
              (String.length s - String.length p) s.
Proof.
  unfold startswith. revert s. induction p as [|a p IH]; intros s Hp.
  - cbn. by rewrite Nat.sub_0_r, substring_all.
  - destruct s as [|c s]; [done|]. cbn in Hp.
    destruct (ascii_dec a c) as [->|]; [|done].
    change (String c s = String c (p +:+ String.substring (String.length p)
              (String.length s - String.length p) s)).
    f_equal. by apply IH.
Qed.

Lemma startswith_app (p rest : string) : startswith (p +:+ rest) p = true.
Proof.
  unfold startswith. induction p as [|a p IH]; [by destruct rest|].
  change (String.prefix (String a p) (String a (p +:+ rest)) = true).
  cbn. by destruct (ascii_dec a a).
Qed.

(** [replace] with count 1 on a string that starts with [old] swaps that
    prefix and nothing else, whatever the rest holds. *)
Lemma replace1_prefix (old new rest : string) :
  replace1 old new (old +:+ rest) = new +:+ rest.
Proof.
  pose proof (startswith_app old rest) as Hp.
  pose proof (startswith_split _ _ Hp) as Hs.
  apply (inj (String.app old)) in Hs.
  unfold startswith in Hp.
  destruct (old +:+ rest) as [|c s] eqn:Hos; cbn [replace1];
    rewrite Hp; by rewrite <-Hs.
Qed.

(** ** What the record of calls can hold *)

(** The calls that one iteration adds. *)
Lemma generate_template_event w target config output_dir params x t e :
  e ∈ snd (generate_template w target config output_dir params x t) →
  e ∈ t ∨
  (e = GetTemplate (replace1 "base" target x) ∧
   startswith x "base" = true) ∨
  (∃ file,
     e = RenderTemplate output_dir x params file ∧
     selects w target (disable_features config) x ∧
     resolve_template_path w (cwd w) (output_name target x) = Return file).
Proof.
  unfold selects, output_name. unfold_body. intros He.
  repeat (case_match; simplify_eq/=);
    repeat (apply elem_of_app in He as [He|He%list_elem_of_singleton]);
    simplify_eq; auto.
  all: right; right; eexists; (split; [done|]); (split; [|done]);
    try done.
  - split; [eauto|]. intros feature ?. simplify_eq. by case_bool_decide.
  - split; [eauto|]. intros feature ?. simplify_eq.
Qed.

(** The calls that a run adds. *)
Lemma generate_event w target t e :
  e ∈ snd (generate w target t) →
  e ∈ t ∨ e = ListTemplates ∨
  ∃ config x,
    CONFIG !! target = Some config ∧ x ∈ list_templates w ∧
    ((e = GetTemplate (replace1 "base" target x) ∧
      startswith x "base" = true) ∨
     (∃ file,
        e = RenderTemplate (cwd w) x
              {| params_has_feature := has_feature config;
                 params_config := config |} file ∧
        selects w target (disable_features config) x ∧
        resolve_template_path w (cwd w) (output_name target x)
          = Return file)).
Proof.
  unfold generate. destruct (CONFIG !! target) as [config|] eqn:Hc;
    [|by left].
  unfold env_list_templates, emit, bind, modify, ret. cbn.
  apply (for_each_preserves _ (λ s, e ∈ s → _)).
  - intros [He|He%list_elem_of_singleton]%elem_of_app; auto.
  - intros x s Hx IH He.
    apply generate_template_event in He as [He|[He|He]]; [auto|..];
      right; right; exists config, x; auto.
Qed.

(** A run that returns has run every iteration to its end. *)
Lemma generate_iteration w target config x t :
  CONFIG !! target = Some config →
  generate w target [] = (Return tt, t) →
  x ∈ list_templates w →
  ∃ sa sb,
    generate_template w target config (cwd w)
      {| params_has_feature := has_feature config;
         params_config := config |} x sa = (Return tt, sb).
Proof.
  unfold generate. intros -> Hrun Hin.
  unfold env_list_templates, emit, bind, modify, ret in Hrun. cbn in Hrun.
  eapply (for_each_reaches _ prefix) in Hrun
    as (sa & sb & Hbody & _ & _); [eauto| |done].
  intros. apply generate_template_prefix.
Qed.

(** X1.  [generate] renders nothing outside the two namespaces: a template
    whose name starts neither with ["base"] nor with the target is never
    handed to [render_template]. *)
Theorem other_namespace_never_rendered (w : World) (target template : string) :
  startswith template "base" = false →
  startswith template target = false →
  ¬ rendered template (snd (generate w target [])).
Proof.
  intros Hb Ht Hr.
  apply generate_rendered in Hr as [(? & ? & ? & Hin)|(c & _ & _ & Hsel)].
  { by apply elem_of_nil in Hin. }
  unfold selects in Hsel. rewrite Hb in Hsel. congruence.
Qed.

Lemma other_namespace_never_rendered_witness :
  ¬ rendered "sqlite/test_raw.py.jinja"
      (snd (generate Samples.templates_dir "postgresql" [])).
Proof.
  apply (other_namespace_never_rendered Samples.templates_dir "postgresql");
    reflexivity.
Defined.

(** X2.  Every call of [render_template] that [generate] makes is for a
    listed template, with the working directory as output directory, with
    the configuration of the target and [has_feature] bound to it as
    parameters, and with the file that [resolve_template_path] gave for the
    output name: the name of the template itself, or, for a base template,
    that name with the target in place of the leading ["base"], so that a
    base template is written among the files of the target. *)
Theorem render_arguments (w : World) (target : string) (output_dir : Path)
    (template : string) (params : Params) (file : Path) :
  RenderTemplate output_dir template params file
    ∈ snd (generate w target []) →
  ∃ config,
    CONFIG !! target = Some config ∧
    template ∈ list_templates w ∧
    output_dir = cwd w ∧
    params_config params = config ∧
    params_has_feature params = has_feature config ∧
    resolve_template_path w (cwd w) (output_name target template)
      = Return file ∧
    (∀ rest, template = "base" +:+ rest →
             output_name target template = target +:+ rest).
Proof.
  intros He.
  apply generate_event in He
    as [He|[He|(config & x & Hc & Hx & [[He _]|(f & He & _ & Hf)])]];
    [by apply elem_of_nil in He|done|done|].
  simplify_eq. exists config. split_and!; try done.
  intros rest ->. unfold output_name.
  by rewrite startswith_app, replace1_prefix.
Qed.

Lemma render_arguments_witness :
  ∃ config,
    CONFIG !! "sqlite" = Some config ∧
    "base/test_find.py.jinja"
      ∈ Noxfile.list_templates Samples.templates_dir ∧
    Path_of "/repo/databases" = cwd Samples.templates_dir ∧
    params_config Samples.sqlite_params = config ∧
    params_has_feature Samples.sqlite_params = has_feature config ∧
    resolve_template_path Samples.templates_dir (cwd Samples.templates_dir)
      (output_name "sqlite" "base/test_find.py.jinja")
      = Return (Path_of "/repo/databases/sqlite/test_find.py.jinja") ∧
    (∀ rest, "base/test_find.py.jinja" = "base" +:+ rest →
             output_name "sqlite" "base/test_find.py.jinja"
             = "sqlite" +:+ rest).
Proof.
  apply (render_arguments Samples.templates_dir "sqlite"
           (Path_of "/repo/databases") "base/test_find.py.jinja"
           Samples.sqlite_params
           (Path_of "/repo/databases/sqlite/test_find.py.jinja")).
  apply (list_elem_of_lookup_2 _ 3). reflexivity.
Defined.

(** X3.  The only templates that [generate] asks the loader for are the
    overrides of listed base templates: each name looked up is the target
    followed by what follows ["base"] in the name of a listed template. *)
Theorem probes_are_overrides (w : World) (target name : string) :
  GetTemplate name ∈ snd (generate w target []) →
  ∃ rest, "base" +:+ rest ∈ list_templates w ∧ name = target +:+ rest.
Proof.
  intros He.
  apply generate_event in He
    as [He|[He|(config & x & Hc & Hx & [[He Hb]|(f & He & _)])]];
    [by apply elem_of_nil in He|done| |done].
  simplify_eq. apply startswith_split in Hb.
  eexists. rewrite <-Hb. split; [done|].
  rewrite Hb at 1. apply replace1_prefix.
Qed.

Lemma probes_are_overrides_witness :
  ∃ rest,
    "base" +:+ rest ∈ Noxfile.list_templates Samples.templates_dir ∧
    "sqlite/test_enums.py.jinja" = "sqlite" +:+ rest.
Proof.
  apply (probes_are_overrides Samples.templates_dir "sqlite").
  apply (list_elem_of_lookup_2 _ 1). reflexivity.
Defined.

(** X4.  A loader failure other than [TemplateNotFound] is not taken for a
    missing override: if looking up the override of a listed base template
    raises anything else, [generate] raises. *)
Theorem loader_failure_aborts (w : World) (target : string)
    (config : DatabaseConfig) (template : string) (e : exn) :
  CONFIG !! target = Some config →
  template ∈ list_templates w →
  startswith template "base" = true →
  get_template w (replace1 "base" target template) = Raise e →
  (∀ n, e ≠ TemplateNotFound n) →
  ∃ e', fst (generate w target []) = Raise e'.
Proof.
  intros Hc Hin Hb Hget Hne.
  destruct (generate w target []) as [[[]|e'] t] eqn:Hrun; [|by eexists].
  destruct (generate_iteration _ _ _ _ _ Hc Hrun Hin) as (sa & sb & Hbody).
  exfalso. revert Hbody. unfold_body. rewrite Hb, Hget.
  destruct e; try done. by destruct (Hne name).
Qed.

Lemma loader_failure_aborts_witness :
  ∃ e', fst (generate Samples.broken_loader "sqlite" []) = Raise e'.
Proof.
  eapply (loader_failure_aborts Samples.broken_loader "sqlite" _
            "base/test_find.py.jinja").
  - reflexivity.
  - cbn. set_solver.
  - reflexivity.
  - reflexivity.
  - done.
Defined.

(** ** Order *)

Lemma rendered_names_app (t t' : list event) :
  rendered_names (t ++ t') = rendered_names t ++ rendered_names t'.
Proof. apply omap_app. Qed.

Lemma generate_template_names w target config output_dir params x t :
  ∃ l,
    rendered_names
      (snd (generate_template w target config output_dir params x t))
    = rendered_names t ++ l ∧
    l `sublist_of` [x].
Proof.
  unfold_body.
  repeat (case_match; simplify_eq/=); rewrite ?rendered_names_app; cbn;
    rewrite <-?(assoc_L (++)); cbn;
    first [ exists []; split; [by rewrite ?app_nil_r|apply sublist_nil_l]
          | exists [x]; by split ].
Qed.

Lemma for_each_names w target config output_dir params xs t :
  ∃ l,
    rendered_names
      (snd (for_each xs
              (generate_template w target config output_dir params) t))
    = rendered_names t ++ l ∧
    l `sublist_of` xs.
Proof.
  revert t. induction xs as [|x xs IH]; intros t.
  { exists []. by rewrite app_nil_r. }
  cbn [for_each]. unfold bind.
  destruct (generate_template_names w target config output_dir params x t)
    as (l1 & Hl1 & Hs1).
  destruct (generate_template w target config output_dir params x t)
    as [[[]|e] t1]; cbn [snd] in *.
  - destruct (IH t1) as (l2 & Hl2 & Hs2).
    exists (l1 ++ l2). rewrite Hl2, Hl1, (assoc_L (++)). split; [done|].
    by apply (sublist_app l1 [x] l2 xs).
  - exists l1. split; [done|].
    etrans; [done|]. apply sublist_skip, sublist_nil_l.
Qed.

(** X5.  [generate] renders in the order of the listing and renders no
    listed entry twice: the templates of its [render_template] calls, in
    the order of the calls, are a subsequence of [list_templates]; this
    holds also for a run that an exception cuts short. *)
Theorem rendered_in_listing_order (w : World) (target : string) :
  rendered_names (snd (generate w target [])) `sublist_of` list_templates w.
Proof.
  unfold generate. destruct (CONFIG !! target) as [config|];
    [|apply sublist_nil_l].
  unfold env_list_templates, emit, bind, modify, ret. cbn.
  destruct (for_each_names w target config (cwd w)
              {| params_has_feature := has_feature config;
                 params_config := config |}
              (list_templates w) [ListTemplates]) as (l & -> & Hl).
  done.
Qed.

(** ** The databases session *)

Lemma sqlite_disables_everything (config : DatabaseConfig)
    (feature : Feature) :
  CONFIG !! "sqlite" = Some config → feature ∈ disable_features config.
Proof.
  intros Hc. vm_compute in Hc. injection Hc as <-.
  destruct feature; set_solver.
Qed.

(** X6.  In the [databases] session a template that has a feature is only
    ever rendered for ["postgresql"]: every [render_template] call for it
    carries the configuration of ["postgresql"] and the file resolved from
    its name under ["postgresql"]. *)
Theorem databases_features_only_for_postgresql (w : World)
    (template : string) (feature : Feature) (output_dir : Path)
    (params : Params) (file : Path) :
  TEMPLATE_TO_FEATURE !! template = Some feature →
  RenderTemplate output_dir template params file ∈ snd (databases w []) →
  CONFIG !! "postgresql" = Some (params_config params) ∧
  resolve_template_path w (cwd w) (replace1 "base" "postgresql" template)
    = Return file.
Proof.
  intros Hf He. pose proof (TEMPLATE_TO_FEATURE_base _ _ Hf) as Hb.
  assert (RenderTemplate output_dir template params file
            ∈ snd (generate w "postgresql" [])) as Hpg.
  { unfold databases, bind in He.
    destruct (generate w "postgresql" []) as [[[]|e] t1]; [|done].
    cbn [snd].
    apply generate_event in He
      as [He|[He|(config & x & Hc & Hx & [[He _]|(f & He & Hsel & _)])]];
      [done..|].
    simplify_eq. unfold selects in Hsel. rewrite Hb in Hsel.
    destruct Hsel as [_ Hgate].
    destruct (Hgate feature Hf).
    by apply sqlite_disables_everything. }
  apply generate_event in Hpg
    as [He'|[He'|(config & x & Hc & Hx & [[He' _]|(f & He' & _ & Hres)])]];
    [by apply elem_of_nil in He'|done..|].
  simplify_eq. unfold output_name in Hres. rewrite Hb in Hres.
  by split.
Qed.

Lemma databases_features_only_for_postgresql_witness :
  CONFIG !! "postgresql"
    = Some (params_config Samples.postgresql_params) ∧
  resolve_template_path Samples.templates_dir (cwd Samples.templates_dir)
    (replace1 "base" "postgresql" "base/test_enums.py.jinja")
    = Return (Path_of "/repo/databases/postgresql/test_enums.py.jinja").
Proof.
  apply (databases_features_only_for_postgresql Samples.templates_dir
           "base/test_enums.py.jinja" enum (Path_of "/repo/databases")
           Samples.postgresql_params
           (Path_of "/repo/databases/postgresql/test_enums.py.jinja")).
  - reflexivity.
  - apply (list_elem_of_lookup_2 _ 2). reflexivity.
Defined.

End NoxfileProps.

(** * Properties of src/prisma/_config.py *)

Module ConfigProps.
Import PrismaConfig.

(** ** Sources *)

(** An earlier source overrides a later one. *)
Lemma build_values_lookup (init env secrets : gmap string value)
    (k : string) :
  build_values (customise_sources init env secrets) !! k
  = match env !! k with
    | Some v => Some v
    | None => match init !! k with
              | Some v => Some v
              | None => secrets !! k
              end
    end.
Proof.
  unfold build_values, customise_sources. cbn.
  rewrite !lookup_union, lookup_empty.
  by destruct (env !! k), (init !! k), (secrets !! k).
Qed.

Lemma settings_values_lookup names w init k :
  settings_values names w init !! k
  = match env_settings names w !! k with
    | Some v => Some v
    | None => init !! k
    end.
Proof.
  unfold settings_values, file_secret_settings.
  rewrite build_values_lookup, lookup_empty.
  by destruct (env_settings names w !! k), (init !! k).
Qed.

(** The environment source gives a field the value of its variable. *)
Lemma env_settings_lookup (names : list (string * string)) (w : World)
    (field : string) :
  NoDup names.*1 →
  env_settings names w !! field
  = (list_to_map names : gmap string string) !! field
      ≫= λ var, VStr <$> environ w !! var.
Proof.
  unfold env_settings.
  induction names as [|[f var] names IH]; intros Hnd; [done|].
  apply NoDup_cons in Hnd as [Hf Hnd]. cbn.
  destruct (decide (f = field)) as [->|Hne].
  - rewrite lookup_insert_eq. cbn.
    destruct (environ w !! var) as [x|]; cbn.
    + by rewrite lookup_insert_eq.
    + rewrite (IH Hnd).
      by rewrite (not_elem_of_list_to_map_1 _ _ Hf).
  - rewrite lookup_insert_ne by done.
    destruct (environ w !! var) as [x|]; cbn.
    + rewrite lookup_insert_ne by done. by apply IH.
    + by apply IH.
Qed.

Lemma DefaultConfig_env_NoDup : NoDup DefaultConfig_env.*1.
Proof. by apply (bool_decide_unpack _). Qed.

Lemma Config_env_NoDup : NoDup Config_env.*1.
Proof. by apply (bool_decide_unpack _). Qed.

(** ** Validation *)

(** The variable of a field is computed from the table of names. *)
Ltac lookup_names :=
  repeat match goal with
  | |- context [ @lookup string ?V (gmap string ?V) _ ?f (list_to_map ?l) ] =>
      let r := eval vm_compute in
        (@lookup string V (gmap string V) _ f (list_to_map l)) in
      change (@lookup string V (gmap string V) _ f (list_to_map l)) with r
  end.

Lemma Settings_dict_lookup {C} (cache : C → value) (c : Settings C) :
  Settings_dict cache c !! "prisma_version" = Some (VStr (prisma_version c)) ∧
  Settings_dict cache c !! "engine_version" = Some (VStr (engine_version c)) ∧
  Settings_dict cache c !! "prisma_url" = Some (VStr (prisma_url c)) ∧
  Settings_dict cache c !! "engine_url" = Some (VStr (engine_url c)) ∧
  Settings_dict cache c !! "binary_cache_dir"
    = Some (cache (binary_cache_dir c)).
Proof.
  unfold Settings_dict.
  split_and!;
    by rewrite ?lookup_insert_ne, ?lookup_insert_eq, ?lookup_singleton_eq
      by done.
Qed.

(** What [Config.parse_obj(config.dict())] makes of a [DefaultConfig] whose
    cache directory is set: every field is taken from its environment
    variable if there is one, and from the object otherwise. *)
Lemma Config_validate_dict (w : World) (d : DefaultConfig) (p : Path) :
  binary_cache_dir d = Some p →
  Config_validate (settings_values Config_env w (DefaultConfig_dict d))
  = Return
      {| prisma_version :=
           default (prisma_version d) (environ w !! "PRISMA_VERSION");
         engine_version :=
           default (engine_version d) (environ w !! "PRISMA_ENGINE_VERSION");
         prisma_url := default (prisma_url d) (environ w !! "PRISMA_CLI_URL");
         engine_url :=
           default (engine_url d) (environ w !! "PRISMA_ENGINE_URL");
         binary_cache_dir :=
           from_option Path_of p (environ w !! "BINARY_CACHE_DIR") |}.
Proof.
  intros Hp. unfold Config_validate, validate_fields.
  rewrite !settings_values_lookup.
  rewrite !env_settings_lookup by apply Config_env_NoDup.
  unfold DefaultConfig_dict.
  destruct (Settings_dict_lookup (from_option VPath VNone) d)
    as (-> & -> & -> & -> & ->).
  lookup_names. cbn. rewrite Hp.
  by destruct (environ w !! "PRISMA_VERSION"),
    (environ w !! "PRISMA_ENGINE_VERSION"), (environ w !! "PRISMA_CLI_URL"),
    (environ w !! "PRISMA_ENGINE_URL"), (environ w !! "BINARY_CACHE_DIR").
Qed.

(** ** from_base *)

Local Arguments settings_values : simpl never.
Local Arguments Config_validate : simpl never.
Local Arguments DefaultConfig_validate : simpl never.
Local Arguments DefaultConfig_dict : simpl never.
Local Arguments engines_dir : simpl never.

Ltac unfold_M :=
  unfold bind, lift, get, modify, ret, raise, alloc in *.

(** The whole effect of [from_base] on a [DefaultConfig] object: the cache
    directory of the object is filled in if it was [None], then a [Config]
    is validated from the dictionary of the object as it now is and takes
    the next free address. *)
Lemma from_base_spec (w : World) (r : nat) (st : state) (d : DefaultConfig) :
  heap st !! r = Some (DefaultConfigObject d) →
  let dir := default (engines_dir w (engine_version d)) (binary_cache_dir d) in
  let d' := with_binary_cache_dir d (Some dir) in
  ∃ c,
    Config_validate (settings_values Config_env w (DefaultConfig_dict d'))
      = Return c ∧
    from_base w r st
      = (Return (length (heap st)),
         set_heap (λ h, <[r := DefaultConfigObject d']> h ++ [ConfigObject c])
           st).
Proof.
  intros Hr dir d'.
  pose proof (lookup_lt_Some _ _ _ Hr) as Hlt.
  assert (binary_cache_dir d' = Some dir) as Hdir by done.
  pose proof (Config_validate_dict w d' dir Hdir) as Hv.
  eexists. split; [done|].
  unfold from_base, read_base, set_binary_cache_dir, Config_parse_obj,
    Config_of_obj.
  unfold_M. cbn. rewrite Hr. cbn.
  destruct (binary_cache_dir d) as [p|] eqn:Hp; cbn.
  - assert (d' = d) as Hd.
    { subst d' dir. destruct d. cbn in *. by subst. }
    rewrite Hd in Hv |- *. rewrite Hr. cbn. rewrite Hv. cbn.
    unfold set_heap. cbn. by rewrite (list_insert_id _ _ _ Hr).
  - rewrite Hr. cbn. rewrite list_lookup_insert_eq by done. cbn.
    subst d' dir. cbn in Hv. rewrite Hv. cbn.
    unfold set_heap. cbn. rewrite !Hr. by rewrite length_insert.
Qed.

(** ** load *)

(** A text field of a table of strings, under the environment. *)
Lemma str_field_strings (t : gmap string value) (field : string)
    (dflt : string) (var : option string) :
  (∀ k v, t !! k = Some v → ∃ s, v = VStr s) →
  with_default dflt (str_validator field)
    match VStr <$> var with
    | Some v => Some v
    | None => t !! field
    end
  = Return (default (default dflt (str_at t field)) var).
Proof.
  intros Hstr. unfold str_at. destruct var as [x|]; [done|]. cbn.
  destruct (t !! field) as [v|] eqn:Hv; [|done].
  by apply Hstr in Hv as [? ->].
Qed.

(** What [DefaultConfig.parse_obj] validates from a table of strings: each
    field comes from its environment variable, else from the table, else
    from its default. *)
Lemma DefaultConfig_validate_strings (w : World) (t : gmap string value) :
  (∀ k v, t !! k = Some v → ∃ s, v = VStr s) →
  DefaultConfig_validate (settings_values DefaultConfig_env w t)
  = Return
      {| prisma_version :=
           default (default default_prisma_version (str_at t "prisma_version"))
             (environ w !! "PRISMA_VERSION");
         engine_version :=
           default (default default_engine_version
                      (str_at t "engine_version"))
             (environ w !! "PRISMA_ENGINE_VERSION");
         prisma_url :=
           default (default
                      default_prisma_url
                      (str_at t "prisma_url"))
             (environ w !! "PRISMA_CLI_URL");
         engine_url :=
           default (default
                      default_engine_url
                      (str_at t "engine_url"))
             (environ w !! "PRISMA_ENGINE_URL");
         binary_cache_dir :=
           Path_of <$>
             match environ w !! "PRISMA_BINARY_CACHE_DIR" with
             | Some x => Some x
             | None => str_at t "binary_cache_dir"
             end |}.
Proof.
  intros Hstr. unfold DefaultConfig_validate, validate_fields.
  rewrite !settings_values_lookup.
  rewrite !env_settings_lookup by apply DefaultConfig_env_NoDup.
  lookup_names. cbn [mbind option_bind].
  rewrite !(str_field_strings t) by done. cbn [outcome_bind].
  unfold str_at.
  destruct (environ w !! "PRISMA_BINARY_CACHE_DIR") as [x|]; [done|].
  destruct (t !! "binary_cache_dir") as [v|] eqn:Hv; [|done].
  by apply Hstr in Hv as [? ->].
Qed.

(** [load] in full: it raises what reading or validating the project table
    raises and leaves the state alone; otherwise it adds two objects, the
    [DefaultConfig] with its cache directory filled in and the [Config]
    validated from it, and returns the address of the second. *)
Lemma load_spec (w : World) (path : option Path) (st : state) :
  match outcome_bind (read_project w (project_path path))
          (DefaultConfig_of_obj w) with
  | Raise e => load w path st = (Raise e, st)
  | Return d =>
      let dir :=
        default (engines_dir w (engine_version d)) (binary_cache_dir d) in
      let d' := with_binary_cache_dir d (Some dir) in
      ∃ c,
        Config_validate (settings_values Config_env w (DefaultConfig_dict d'))
          = Return c ∧
        load w path st
          = (Return (S (length (heap st))),
             set_heap (λ h, h ++ [DefaultConfigObject d'; ConfigObject c]) st)
  end.
Proof.
  unfold load, project_path, DefaultConfig_parse_obj. unfold_M.
  destruct (read_project w _) as [v|e]; cbn; [|done].
  destruct (DefaultConfig_of_obj w v) as [d|e]; cbn; [|done].
  set (st1 := set_heap (λ h, h ++ [DefaultConfigObject d]) st).
  assert (heap st1 !! length (heap st) = Some (DefaultConfigObject d)) as Hd.
  { cbn. by rewrite lookup_app_r, Nat.sub_diag. }
  destruct (from_base_spec w _ st1 d Hd) as (c & Hc & ->).
  exists c. split; [done|]. f_equal.
  - cbn. rewrite length_app. cbn. f_equal. lia.
  - unfold set_heap. cbn. f_equal.
    rewrite insert_app_r_alt, Nat.sub_diag by done. cbn.
    by rewrite <-(assoc_L (++)).
Qed.

(** The [Config] that [load] returns when the first stage validates [d]:
    the fields of [d], each overridden by its variable if that is set. *)
Lemma load_result (w : World) (path : option Path) (st : state)
    (d : DefaultConfig) :
  outcome_bind (read_project w (project_path path)) (DefaultConfig_of_obj w)
    = Return d →
  ∃ st',
    load w path st = (Return (S (length (heap st))), st') ∧
    heap st' !! S (length (heap st))
    = Some (ConfigObject
        {| prisma_version :=
             default (prisma_version d) (environ w !! "PRISMA_VERSION");
           engine_version :=
             default (engine_version d)
               (environ w !! "PRISMA_ENGINE_VERSION");
           prisma_url :=
             default (prisma_url d) (environ w !! "PRISMA_CLI_URL");
           engine_url :=
             default (engine_url d) (environ w !! "PRISMA_ENGINE_URL");
           binary_cache_dir :=
             from_option Path_of
               (default (engines_dir w (engine_version d))
                  (binary_cache_dir d))
               (environ w !! "BINARY_CACHE_DIR") |}).
Proof.
  intros Hd. pose proof (load_spec w path st) as Hload.
  rewrite Hd in Hload. destruct Hload as (c & Hc & Hrun).
  rewrite (Config_validate_dict w
             (with_binary_cache_dir d
                (Some (default (engines_dir w (engine_version d))
                         (binary_cache_dir d))))
             (default (engines_dir w (engine_version d))
                (binary_cache_dir d)) eq_refl) in Hc.
  injection Hc as <-. eexists. split; [exact Hrun|].
  unfold set_heap; cbn [heap]. rewrite lookup_app_r by lia.
  by replace (S (length (heap st)) - length (heap st)) with 1 by lia.
Qed.

(** The first stage of [load] on a table of strings. *)
Lemma load_first_stage (w : World) (path : option Path)
    (t : gmap string value) :
  read_project w (project_path path) = Return (VTable t) →
  (∀ k v, t !! k = Some v → ∃ s, v = VStr s) →
  ∃ d,
    outcome_bind (read_project w (project_path path))
      (DefaultConfig_of_obj w) = Return d ∧
    engine_version d
    = default (default default_engine_version
                 (str_at t "engine_version"))
        (environ w !! "PRISMA_ENGINE_VERSION") ∧
    binary_cache_dir d
    = Path_of <$>
        match environ w !! "PRISMA_BINARY_CACHE_DIR" with
        | Some x => Some x
        | None => str_at t "binary_cache_dir"
        end.
Proof.
  intros Hread Hstr. rewrite Hread. cbn [outcome_bind DefaultConfig_of_obj].
  rewrite (DefaultConfig_validate_strings w t Hstr). by eexists.
Qed.

(** ** The proxy *)

Local Arguments log_load : simpl never.
Local Arguments store_result : simpl never.
Local Arguments load : simpl never.

Lemma get_proxied_hit (w : World) (self r : nat) (st : state) :
  lru_cache st !! self = Some r →
  get_proxied w self st = (Return r, st).
Proof. intros H. unfold get_proxied. unfold_M. by rewrite H. Qed.

Lemma get_proxied_miss (w : World) (self : nat) (st : state) :
  lru_cache st !! self = None →
  (∃ e, get_proxied w self st = (Raise e, log_load self st)) ∨
  (∃ d c,
     get_proxied w self st
     = (Return (S (length (heap st))),
        store_result self (S (length (heap st)))
          (set_heap (λ h, h ++ [DefaultConfigObject d; ConfigObject c])
             (log_load self st)))).
Proof.
  intros H. unfold get_proxied. unfold_M. rewrite H. cbn.
  pose proof (load_spec w None (log_load self st)) as Hload.
  destruct (outcome_bind _ _) as [d|e].
  - destruct Hload as (c & _ & ->). right. by eexists _, c.
  - rewrite Hload. left. by eexists.
Qed.

Lemma loads_for_log_load (self p : nat) (st : state) :
  loads_for self (log_load p st)
  = loads_for self st + (if decide (p = self) then 1 else 0).
Proof.
  unfold loads_for, log_load. cbn.
  rewrite filter_app, length_app. f_equal.
  rewrite filter_cons, filter_nil. by case_decide.
Qed.

(** An access changes the state through [__get_proxied] only. *)
Lemma proxy_getattr_state (w : World) (p : nat) (attr : string) (st : state) :
  snd (proxy_getattr w p attr st) = snd (get_proxied w p st).
Proof.
  unfold proxy_getattr. unfold_M.
  destruct (get_proxied w p st) as [[r|e] st']; cbn; [|done].
  by destruct (heap st' !! r).
Qed.

(** What one call of [__get_proxied] keeps: stored results stay stored and
    stay addresses of [Config] objects, the heap only grows, and nothing is
    loaded for a proxy that has a stored result. *)
Lemma get_proxied_keeps (w : World) (p : nat) (st : state) :
  cache_valid st →
  cache_valid (snd (get_proxied w p st)) ∧
  heap st `prefix_of` heap (snd (get_proxied w p st)) ∧
  ∀ self r, lru_cache st !! self = Some r →
            lru_cache (snd (get_proxied w p st)) !! self = Some r ∧
            loads_for self (snd (get_proxied w p st)) = loads_for self st.
Proof.
  intros Hvalid. destruct (lru_cache st !! p) as [r|] eqn:Hp.
  { rewrite (get_proxied_hit w p r st Hp). cbn. by split_and!. }
  destruct (get_proxied_miss w p st Hp) as [[e ->]|(d & c & ->)]; cbn.
  - split_and!; [done..|]. intros self r Hself. split; [done|].
    rewrite loads_for_log_load. case_decide; [|lia].
    subst. rewrite Hp in Hself. done.
  - split_and!.
    + intros self r. unfold store_result. cbn. intros Hself.
      apply lookup_insert_Some in Hself as [[-> <-]|[_ Hself]].
      * exists c. unfold log_load. cbn. rewrite lookup_app_r by lia.
        by replace (S (length (heap st)) - length (heap st)) with 1 by lia.
      * destruct (Hvalid self r Hself) as [c' Hc']. exists c'.
        by apply lookup_app_l_Some.
    + by apply prefix_app_r.
    + intros self r Hself. assert (p ≠ self) by congruence. split.
      * unfold store_result. cbn. by rewrite lookup_insert_ne.
      * unfold store_result, set_heap, loads_for. cbn.
        fold (loads_for self (log_load p st)).
        rewrite loads_for_log_load. case_decide; [done|].
        unfold loads_for. lia.
Qed.

Lemma run_accesses_cons w p attr accesses st :
  run_accesses ((w, p, attr) :: accesses) st
  = run_accesses accesses (snd (get_proxied w p st)).
Proof. unfold run_accesses. cbn. by rewrite proxy_getattr_state. Qed.

Lemma run_accesses_keeps (accesses : list (World * nat * string))
    (st : state) :
  cache_valid st →
  cache_valid (run_accesses accesses st) ∧
  heap st `prefix_of` heap (run_accesses accesses st) ∧
  ∀ self r, lru_cache st !! self = Some r →
            lru_cache (run_accesses accesses st) !! self = Some r ∧
            loads_for self (run_accesses accesses st) = loads_for self st.
Proof.
  revert st. induction accesses as [|[[w p] attr] accesses IH];
    intros st Hvalid; [by split_and!|].
  rewrite run_accesses_cons.
  destruct (get_proxied_keeps w p st Hvalid) as (Hv1 & Hh1 & Hc1).
  destruct (IH _ Hv1) as (Hv2 & Hh2 & Hc2).
  split_and!; [done|by etrans|].
  intros self r Hself. destruct (Hc1 self r Hself) as [Hs1 Hl1].
  destruct (Hc2 self r Hs1) as [Hs2 Hl2]. split; [done|congruence].
Qed.

Lemma cache_valid_initial : cache_valid initial.
Proof. intros self r H. cbn in H. by rewrite lookup_empty in H. Qed.

Lemma get_proxied_stores (w : World) (self r : nat) (st st1 : state) :
  get_proxied w self st = (Return r, st1) →
  lru_cache st1 !! self = Some r.
Proof.
  intros Hrun. destruct (lru_cache st !! self) as [r'|] eqn:Hp.
  - rewrite (get_proxied_hit w self r' st Hp) in Hrun. by simplify_eq.
  - destruct (get_proxied_miss w self st Hp) as [[e He]|(d & c & He)];
      rewrite He in Hrun; simplify_eq.
    unfold store_result. cbn. by rewrite lookup_insert_eq.
Qed.

(** ** The claims about the settings *)

(** C10.  [from_base] works on the object it is given.  When the
    [binary_cache_dir] of that [DefaultConfig] is [None], the call assigns
    the engines directory of the object's [engine_version] to the field of
    that very object and leaves its other fields, and every other object,
    as they were; the [Config] it returns is a new object, validated from
    the dictionary of the argument as it is after the assignment.  When
    the field is not [None], the argument is not changed. *)
Theorem from_base_mutates_argument (w : World) (config : nat) (st : state)
    (d : DefaultConfig) :
  heap st !! config = Some (DefaultConfigObject d) →
  ∃ r st' d' c,
    from_base w config st = (Return r, st') ∧
    heap st' !! config = Some (DefaultConfigObject d') ∧
    prisma_version d' = prisma_version d ∧
    engine_version d' = engine_version d ∧
    prisma_url d' = prisma_url d ∧
    engine_url d' = engine_url d ∧
    match binary_cache_dir d with
    | None => binary_cache_dir d' = Some (engines_dir w (engine_version d))
    | Some _ => d' = d
    end ∧
    (∀ i, i ≠ config → i < length (heap st) →
          heap st' !! i = heap st !! i) ∧
    r ≠ config ∧ heap st !! r = None ∧
    heap st' !! r = Some (ConfigObject c) ∧
    Config_of_obj w (VTable (DefaultConfig_dict d')) = Return c.
Proof.
  intros Hd. pose proof (lookup_lt_Some _ _ _ Hd) as Hlt.
  destruct (from_base_spec w config st d Hd) as (c & Hc & Hrun).
  set (dir := default (engines_dir w (engine_version d))
                (binary_cache_dir d)) in *.
  set (d' := with_binary_cache_dir d (Some dir)) in *.
  eexists (length (heap st)), _, d', c. split; [exact Hrun|].
  unfold set_heap; cbn [heap].
  split; [|split; [reflexivity|split; [reflexivity|split; [reflexivity|
    split; [reflexivity|split; [|split; [|split; [|split; [|split]]]]]]]]].
  - rewrite lookup_app_l by (by rewrite length_insert).
    by apply list_lookup_insert_eq.
  - subst d' dir. destruct d as [? ? ? ? [p|]]; reflexivity.
  - intros i Hne Hi. rewrite lookup_app_l by (by rewrite length_insert).
    by apply list_lookup_insert_ne.
  - lia.
  - by apply lookup_ge_None.
  - rewrite lookup_app_r by (by rewrite length_insert).
    by rewrite length_insert, Nat.sub_diag.
  - exact Hc.
Qed.

Lemma from_base_mutates_argument_witness :
  ∃ r st' d' c,
    from_base Samples.bare 0 Samples.one_object = (Return r, st') ∧
    heap st' !! 0 = Some (DefaultConfigObject d') ∧
    prisma_version d' = "3.13.0" ∧
    engine_version d' = "abc" ∧
    prisma_url d' = "https://example.org/cli.gz" ∧
    engine_url d' = "https://example.org/engine.gz" ∧
    binary_cache_dir d' = Some (engines_dir Samples.bare "abc") ∧
    (∀ i, i ≠ 0 → i < 1 → heap st' !! i = heap Samples.one_object !! i) ∧
    r ≠ 0 ∧ heap Samples.one_object !! r = None ∧
    heap st' !! r = Some (ConfigObject c) ∧
    Config_of_obj Samples.bare (VTable (DefaultConfig_dict d')) = Return c.
Proof.
  apply (from_base_mutates_argument Samples.bare 0 Samples.one_object
           Samples.plain_settings).
  reflexivity.
Defined.

(** ** Precedence *)

(** C4 as stated fails here.  Where the specification's order of sources
    and [customise_sources] part: construct the settings from no argument while the project file
    sets a field.  The specification's order falls through to the project
    file and reads ["Y"]; the constructor never opens the file and takes
    the default. *)
Lemma project_file_is_not_a_source :
  ¬ ∀ (w : World) (init : gmap string value),
      DefaultConfig_validate (settings_values DefaultConfig_env w init)
      = DefaultConfig_validate (build_values (spec_sources w init)).
Proof.
  intros H. specialize (H (Samples.with_project ∅) ∅).
  vm_compute in H. discriminate H.
Qed.

(** A text field of a table, under the environment, when the entry of the
    table under that field is text. *)
Lemma str_field_text (t : gmap string value) (field : string)
    (dflt : string) (var : option string) :
  (∀ v, t !! field = Some v → ∃ s, v = VStr s) →
  with_default dflt (str_validator field)
    match VStr <$> var with
    | Some v => Some v
    | None => t !! field
    end
  = Return (default (default dflt (str_at t field)) var).
Proof.
  intros Hstr. unfold str_at. destruct var as [x|]; [done|]. cbn.
  destruct (t !! field) as [v|] eqn:Hv; [|done].
  by destruct (Hstr v eq_refl) as [? ->].
Qed.

(** The first stage of [load] when the entries of the table under the
    fields are text, but for an [engine_version] that the environment
    supplies: whatever the table holds there is not looked at. *)
Lemma load_first_stage_text (w : World) (path : option Path)
    (t : gmap string value) :
  read_project w (project_path path) = Return (VTable t) →
  (∀ k v, k ∈ field_names → k ≠ "engine_version" →
          t !! k = Some v → ∃ s, v = VStr s) →
  (is_Some (environ w !! "PRISMA_ENGINE_VERSION") ∨
   ∀ v, t !! "engine_version" = Some v → ∃ s, v = VStr s) →
  ∃ d,
    outcome_bind (read_project w (project_path path))
      (DefaultConfig_of_obj w) = Return d ∧
    engine_version d
    = default (default default_engine_version (str_at t "engine_version"))
        (environ w !! "PRISMA_ENGINE_VERSION").
Proof.
  intros Hread Hothers Hev. rewrite Hread.
  cbn [outcome_bind DefaultConfig_of_obj].
  unfold DefaultConfig_validate, validate_fields.
  rewrite !settings_values_lookup.
  rewrite !env_settings_lookup by apply DefaultConfig_env_NoDup.
  lookup_names. cbn [mbind option_bind].
  assert (∀ k, k ∈ field_names → k ≠ "engine_version" →
               ∀ v, t !! k = Some v → ∃ s, v = VStr s) as Hk by eauto.
  rewrite (str_field_text t "prisma_version"),
    (str_field_text t "prisma_url"), (str_field_text t "engine_url")
    by (apply Hk; [apply (bool_decide_unpack _); reflexivity|done]).
  cbn [outcome_bind].
  assert (with_default default_engine_version
            (str_validator "engine_version")
            match VStr <$> environ w !! "PRISMA_ENGINE_VERSION" with
            | Some v => Some v
            | None => t !! "engine_version"
            end
          = Return (default (default default_engine_version
                               (str_at t "engine_version"))
                      (environ w !! "PRISMA_ENGINE_VERSION"))) as ->.
  { destruct Hev as [[X ->]|Hev]; [done|]. by apply str_field_text. }
  cbn [outcome_bind].
  assert (∃ dir,
            with_default None (optional (path_validator "binary_cache_dir"))
              match VStr <$> environ w !! "PRISMA_BINARY_CACHE_DIR" with
              | Some v => Some v
              | None => t !! "binary_cache_dir"
              end = Return dir) as [dir ->].
  { destruct (environ w !! "PRISMA_BINARY_CACHE_DIR") as [x|];
      [by eexists|]. cbn.
    destruct (t !! "binary_cache_dir") as [v|] eqn:Hv; [|by eexists].
    destruct (Hk "binary_cache_dir"
                ltac:(apply (bool_decide_unpack _); reflexivity)
                ltac:(done) v Hv) as [x ->].
    by eexists. }
  cbn [outcome_bind]. by eexists.
Qed.

(** C4, as the code has it.  The sources are merged in the order
    environment, constructor arguments, secrets source.  [Config.load]
    hands the [tool.prisma] table of the project file to the constructor as
    its arguments (a table of settings, without keys that the constructor
    keeps for itself).  So when [PRISMA_ENGINE_VERSION] is set to [X],
    every [Config] that [load] returns has [engine_version] [X], whatever
    the table holds under [engine_version] or elsewhere.  And [load] does
    return when the table's entries under the other fields are text: with
    [X] if the variable is set, and otherwise with the table's text, and
    otherwise with the default. *)
Theorem environment_overrides_project_table (w : World) (path : option Path)
    (t : gmap string value) (st : state) :
  read_project w (project_path path) = Return (VTable t) →
  no_reserved_keys t →
  (∀ (init env secrets : gmap string value) (k : string),
     build_values (customise_sources init env secrets) !! k
     = match env !! k with
       | Some v => Some v
       | None => match init !! k with
                 | Some v => Some v
                 | None => secrets !! k
                 end
       end) ∧
  (∀ X r st',
     environ w !! "PRISMA_ENGINE_VERSION" = Some X →
     load w path st = (Return r, st') →
     ∃ c, heap st' !! r = Some (ConfigObject c) ∧ engine_version c = X) ∧
  ((∀ k v, k ∈ field_names → k ≠ "engine_version" →
           t !! k = Some v → ∃ s, v = VStr s) →
   (∀ X, environ w !! "PRISMA_ENGINE_VERSION" = Some X →
         ∃ r st' c,
           load w path st = (Return r, st') ∧
           heap st' !! r = Some (ConfigObject c) ∧ engine_version c = X) ∧
   (environ w !! "PRISMA_ENGINE_VERSION" = None →
    ∀ Y, t !! "engine_version" = Some (VStr Y) →
         ∃ r st' c,
           load w path st = (Return r, st') ∧
           heap st' !! r = Some (ConfigObject c) ∧ engine_version c = Y) ∧
   (environ w !! "PRISMA_ENGINE_VERSION" = None →
    t !! "engine_version" = None →
    ∃ r st' c,
      load w path st = (Return r, st') ∧
      heap st' !! r = Some (ConfigObject c) ∧
      engine_version c = default_engine_version)).
Proof.
  intros Hread _. split; [apply build_values_lookup|]. split.
  - intros X r st' HX Hrun.
    pose proof (load_spec w path st) as Hload.
    destruct (outcome_bind _ _) as [d|e] eqn:Hd;
      [|rewrite Hload in Hrun; by simplify_eq].
    destruct (load_result w path st d Hd) as (st'' & Hrun' & Hc).
    rewrite Hrun' in Hrun. simplify_eq.
    eexists. split; [exact Hc|]. cbn [engine_version]. by rewrite HX.
  - intros Hothers.
    assert (∀ Hev : is_Some (environ w !! "PRISMA_ENGINE_VERSION") ∨
                    ∀ v, t !! "engine_version" = Some v → ∃ s, v = VStr s,
              ∃ r st' c,
                load w path st = (Return r, st') ∧
                heap st' !! r = Some (ConfigObject c) ∧
                engine_version c
                = default (default default_engine_version
                             (str_at t "engine_version"))
                    (environ w !! "PRISMA_ENGINE_VERSION")) as Hret.
    { intros Hev.
      destruct (load_first_stage_text w path t Hread Hothers Hev)
        as (d & Hd & Hd_ev).
      destruct (load_result w path st d Hd) as (st' & Hrun & Hc).
      eexists _, _, _. split; [exact Hrun|]. split; [exact Hc|].
      cbn [engine_version]. rewrite Hd_ev.
      by destruct (environ w !! "PRISMA_ENGINE_VERSION"). }
    split_and!.
    + intros X HX. destruct (Hret ltac:(left; by rewrite HX))
        as (r & st' & c & ? & ? & Hc).
      exists r, st', c. split_and!; [done..|]. by rewrite Hc, HX.
    + intros Hnone Y HY.
      destruct (Hret ltac:(right; intros v ?; simplify_eq; eauto))
        as (r & st' & c & ? & ? & Hc).
      exists r, st', c. split_and!; [done..|].
      rewrite Hc, Hnone. unfold str_at. by rewrite HY.
    + intros Hnone Ht.
      destruct (Hret ltac:(right; intros v ?; simplify_eq))
        as (r & st' & c & ? & ? & Hc).
      exists r, st', c. split_and!; [done..|].
      rewrite Hc, Hnone. unfold str_at. by rewrite Ht.
Qed.

Lemma environment_overrides_project_table_witness :
  ∃ r st' c,
    load (Samples.with_project {[ "PRISMA_ENGINE_VERSION" := "X" ]}) None
      initial = (Return r, st') ∧
    heap st' !! r = Some (ConfigObject c) ∧
    engine_version c = "X".
Proof.
  destruct (environment_overrides_project_table
              (Samples.with_project {[ "PRISMA_ENGINE_VERSION" := "X" ]})
              None Samples.project_table initial)
    as (_ & _ & Hret).
  - reflexivity.
  - intros k v H. unfold Samples.project_table in H.
    apply lookup_insert_Some in H as [[<- _]|[_ H]]; [reflexivity|].
    by apply lookup_singleton_Some in H as [<- _].
  - destruct Hret as (HX & _).
    + intros k v _ _ H. unfold Samples.project_table in H.
      apply lookup_insert_Some in H as [[_ <-]|[_ H]]; [by eexists|].
      apply lookup_singleton_Some in H as [_ <-]. by eexists.
    + apply HX. reflexivity.
Defined.

(** ** The cache directory *)

(** The engines directory of ["abc"] ends with
    [prisma/binaries/engines/abc]. *)
Lemma engines_dir_abc (w : World) :
  ∃ front,
    path_parts (engines_dir w "abc")
    = front ++ ["prisma"; "binaries"; "engines"; "abc"].
Proof.
  exists (path_parts (Path_of (gettempdir w))).
  unfold engines_dir, truediv. cbn. by rewrite <-!(assoc_L (++)).
Qed.

(** What [load] makes of the cache directory, for a table of strings
    whose keys are settings (none is a keyword that the constructor keeps
    for itself): the variable named after the field if there is one; else
    the value that [DefaultConfig] resolved from [PRISMA_BINARY_CACHE_DIR]
    or the table; else the engines directory of the resolved engine
    version. *)
Lemma load_binary_cache_dir (w : World) (path : option Path)
    (t : gmap string value) (st : state) :
  read_project w (project_path path) = Return (VTable t) →
  no_reserved_keys t →
  (∀ k v, t !! k = Some v → ∃ s, v = VStr s) →
  ∃ r st' c,
    load w path st = (Return r, st') ∧
    heap st' !! r = Some (ConfigObject c) ∧
    binary_cache_dir c
    = match environ w !! "BINARY_CACHE_DIR" with
      | Some x => Path_of x
      | None =>
          match environ w !! "PRISMA_BINARY_CACHE_DIR" with
          | Some x => Path_of x
          | None =>
              match str_at t "binary_cache_dir" with
              | Some x => Path_of x
              | None => engines_dir w (engine_version c)
              end
          end
      end.
Proof.
  intros Hread _ Hstr.
  destruct (load_first_stage w path t Hread Hstr) as (d & Hd & Hev & Hdir).
  destruct (load_result w path st d Hd) as (st' & Hrun & Hc).
  eexists _, _, _. split; [exact Hrun|]. split; [exact Hc|].
  cbn [engine_version binary_cache_dir]. rewrite Hdir.
  destruct (environ w !! "BINARY_CACHE_DIR"); [done|].
  destruct (environ w !! "PRISMA_BINARY_CACHE_DIR"); [done|].
  destruct (str_at t "binary_cache_dir"); [done|]. cbn.
  rewrite Hev. by destruct (environ w !! "PRISMA_ENGINE_VERSION").
Qed.

(** C5, at the input where the code leaves it.  Nothing supplies
    [binary_cache_dir] to [DefaultConfig] (no project file, no
    [PRISMA_BINARY_CACHE_DIR]), so [from_base] finds [None] and derives the
    directory.  But [Config] declares the field anew and without the [env]
    of its parent, so a variable [BINARY_CACHE_DIR] replaces the derived
    directory when the [Config] is validated: the resolved cache directory
    is [/elsewhere], not the engines directory of the resolved engine
    version. *)
Theorem cache_dir_shadowed_by_unprefixed_variable :
  ∃ d st c,
    DefaultConfig_of_obj Samples.unprefixed_variable (VTable ∅) = Return d ∧
    binary_cache_dir d = None ∧
    load Samples.unprefixed_variable None initial = (Return 1, st) ∧
    heap st !! 1 = Some (ConfigObject c) ∧
    binary_cache_dir c = Path_of "/elsewhere" ∧
    binary_cache_dir c
      ≠ engines_dir Samples.unprefixed_variable (engine_version c).
Proof.
  eexists _, _, _. split_and!; [vm_compute; reflexivity|reflexivity|
    vm_compute; reflexivity|reflexivity|reflexivity|].
  vm_compute. discriminate.
Qed.

(** ** The lazy proxy *)

(** C6 as stated fails here: a project file that cannot be parsed makes
    [Config.load] raise, [lru_cache] stores nothing, and the next access
    runs [Config.load] again. *)
Lemma load_retried_after_failure :
  ¬ ∀ (accesses : list (World * nat * string)) (self : nat),
      loads_for self (run_accesses accesses initial) ≤ 1.
Proof.
  intros H.
  specialize (H [ (Samples.broken_project, 0, "engine_version");
                  (Samples.broken_project, 0, "engine_version") ] 0).
  vm_compute in H. lia.
Qed.

(** C6, as the code has it.  In any run of accesses, once [__get_proxied]
    has returned an object for a proxy, every later access through that
    proxy is answered by that same object (the same address, holding the
    same [Config]), in whatever world it is made and whatever happened to
    other proxies meanwhile; the state is not touched by it and
    [Config.load] is not run for the proxy again. *)
Theorem proxy_delegates_to_cached_object
    (before after : list (World * nat * string)) (w w' : World)
    (self r : nat) (attr : string) (st1 : state) :
  get_proxied w self (run_accesses before initial) = (Return r, st1) →
  ∃ c,
    heap st1 !! r = Some (ConfigObject c) ∧
    heap (run_accesses after st1) !! r = Some (ConfigObject c) ∧
    get_proxied w' self (run_accesses after st1)
      = (Return r, run_accesses after st1) ∧
    proxy_getattr w' self attr (run_accesses after st1)
      = (object_getattr (ConfigObject c) attr, run_accesses after st1) ∧
    loads_for self (run_accesses after st1) = loads_for self st1.
Proof.
  intros Hrun.
  destruct (run_accesses_keeps before initial cache_valid_initial)
    as (Hv0 & _ & _).
  pose proof (get_proxied_keeps w self _ Hv0) as (Hv1 & _ & _).
  rewrite Hrun in Hv1. cbn [snd] in Hv1.
  pose proof (get_proxied_stores _ _ _ _ _ Hrun) as Hstored.
  destruct (Hv1 self r Hstored) as [c Hc].
  destruct (run_accesses_keeps after st1 Hv1) as (_ & Hprefix & Hkeep).
  destruct (Hkeep self r Hstored) as [Hstored2 Hloads].
  pose proof (prefix_lookup_Some _ _ _ _ Hc Hprefix) as Hc2.
  pose proof (get_proxied_hit w' self r _ Hstored2) as Hhit.
  exists c. split_and!; [done..| |done].
  unfold proxy_getattr. unfold_M. by rewrite Hhit, Hc2.
Qed.

Lemma proxy_delegates_to_cached_object_witness :
  ∃ c,
    heap (snd (get_proxied Samples.bare 0 initial)) !! 1
      = Some (ConfigObject c) ∧
    heap (run_accesses [(Samples.broken_project, 1, "prisma_url")]
            (snd (get_proxied Samples.bare 0 initial))) !! 1
      = Some (ConfigObject c) ∧
    get_proxied Samples.broken_project 0
      (run_accesses [(Samples.broken_project, 1, "prisma_url")]
         (snd (get_proxied Samples.bare 0 initial)))
      = (Return 1,
         run_accesses [(Samples.broken_project, 1, "prisma_url")]
           (snd (get_proxied Samples.bare 0 initial))) ∧
    proxy_getattr Samples.broken_project 0 "engine_version"
      (run_accesses [(Samples.broken_project, 1, "prisma_url")]
         (snd (get_proxied Samples.bare 0 initial)))
      = (object_getattr (ConfigObject c) "engine_version",
         run_accesses [(Samples.broken_project, 1, "prisma_url")]
           (snd (get_proxied Samples.bare 0 initial))) ∧
    loads_for 0
      (run_accesses [(Samples.broken_project, 1, "prisma_url")]
         (snd (get_proxied Samples.bare 0 initial)))
    = loads_for 0 (snd (get_proxied Samples.bare 0 initial)).
Proof.
  apply (proxy_delegates_to_cached_object [] _ Samples.bare).
  vm_compute. reflexivity.
Defined.

(** * More about src/prisma/_config.py *)

(** ** What load leaves behind *)

(** X7.  [Config.load] touches nothing that exists: the objects already in
    the heap, the store of [lru_cache] and the list of loads are as before.
    When it raises, the state as a whole is as before; when it returns, the
    heap has grown by two objects, the [DefaultConfig] it validated and the
    [Config] it returns, which is the newer of the two. *)
Theorem load_frame (w : World) (path : option Path) (st st' : state)
    (o : outcome nat) :
  load w path st = (o, st') →
  lru_cache st' = lru_cache st ∧
  load_calls st' = load_calls st ∧
  heap st `prefix_of` heap st' ∧
  match o with
  | Raise _ => st' = st
  | Return r =>
      r = S (length (heap st)) ∧
      ∃ d c, heap st' = heap st ++ [DefaultConfigObject d; ConfigObject c]
  end.
Proof.
  intros Hrun. pose proof (load_spec w path st) as Hload.
  destruct (outcome_bind _ _) as [d|e].
  - destruct Hload as (c & _ & Hl). rewrite Hl in Hrun. simplify_eq.
    unfold set_heap. cbn. split_and!; [done..|by apply prefix_app_r| |];
      eauto.
  - rewrite Hload in Hrun. by simplify_eq.
Qed.

Lemma load_frame_witness :
  lru_cache (snd (load Samples.bare None Samples.one_object))
    = lru_cache Samples.one_object ∧
  load_calls (snd (load Samples.bare None Samples.one_object))
    = load_calls Samples.one_object ∧
  heap Samples.one_object
    `prefix_of` heap (snd (load Samples.bare None Samples.one_object)) ∧
  match fst (load Samples.bare None Samples.one_object) with
  | Raise _ => snd (load Samples.bare None Samples.one_object)
               = Samples.one_object
  | Return r =>
      r = S (length (heap Samples.one_object)) ∧
      ∃ d c, heap (snd (load Samples.bare None Samples.one_object))
             = heap Samples.one_object
                 ++ [DefaultConfigObject d; ConfigObject c]
  end.
Proof.
  apply (load_frame Samples.bare None Samples.one_object).
  by destruct (load Samples.bare None Samples.one_object).
Defined.

(** ** Project files without settings *)

(** X8.  A project file that is absent, or has no [tool] table, or has a
    [tool] table without [prisma], is no error: [load] returns a [Config]
    in which every field is the value of its environment variable or else
    its default, and the cache directory, if no variable supplies it, is
    the engines directory of the resolved engine version. *)
Theorem load_without_project_table (w : World) (path : option Path)
    (st : state) :
  (files w (project_path path) = Missing ∨
   (∃ doc, files w (project_path path) = Document doc ∧
           (doc !! "tool" = None ∨
            ∃ tool, doc !! "tool" = Some (VTable tool) ∧
                    tool !! "prisma" = None))) →
  ∃ r st' c,
    load w path st = (Return r, st') ∧
    heap st' !! r = Some (ConfigObject c) ∧
    engine_version c
      = default default_engine_version
          (environ w !! "PRISMA_ENGINE_VERSION") ∧
    prisma_url c = default default_prisma_url (environ w !! "PRISMA_CLI_URL") ∧
    engine_url c
      = default default_engine_url (environ w !! "PRISMA_ENGINE_URL") ∧
    (environ w !! "BINARY_CACHE_DIR" = None →
     environ w !! "PRISMA_BINARY_CACHE_DIR" = None →
     binary_cache_dir c = engines_dir w (engine_version c)).
Proof.
  intros Hfile.
  assert (read_project w (project_path path) = Return (VTable ∅)) as Hread.
  { unfold read_project.
    destruct Hfile as [->|(doc & -> & [Ht|(tool & Ht & Hp)])]; [done|..];
      cbn; rewrite Ht; cbn; [done|]. by rewrite Hp. }
  assert (∀ k v, (∅ : gmap string value) !! k = Some v → ∃ s, v = VStr s)
    as Hstr by (intros k v H; by rewrite lookup_empty in H).
  destruct (load_first_stage w path ∅ Hread Hstr) as (d & Hd & Hev & Hdir).
  destruct (load_result w path st d Hd) as (st' & Hrun & Hc).
  pose proof (DefaultConfig_validate_strings w ∅ Hstr) as Hv.
  rewrite Hread in Hd. cbn [outcome_bind DefaultConfig_of_obj] in Hd.
  rewrite Hv in Hd. injection Hd as Hd.
  eexists _, _, _. split; [exact Hrun|]. split; [exact Hc|].
  cbn [engine_version prisma_url engine_url binary_cache_dir].
  rewrite <-Hd. cbn [engine_version prisma_url engine_url binary_cache_dir].
  unfold str_at. rewrite !lookup_empty. cbn [default from_option id].
  split_and!.
  - by destruct (environ w !! "PRISMA_ENGINE_VERSION").
  - by destruct (environ w !! "PRISMA_CLI_URL").
  - by destruct (environ w !! "PRISMA_ENGINE_URL").
  - intros -> ->. cbn.
    by destruct (environ w !! "PRISMA_ENGINE_VERSION").
Qed.

Lemma load_without_project_table_witness :
  ∃ r st' c,
    load Samples.other_tools None initial = (Return r, st') ∧
    heap st' !! r = Some (ConfigObject c) ∧
    engine_version c
      = default default_engine_version
          (environ Samples.other_tools !! "PRISMA_ENGINE_VERSION") ∧
    prisma_url c
      = default default_prisma_url
          (environ Samples.other_tools !! "PRISMA_CLI_URL") ∧
    engine_url c
      = default default_engine_url
          (environ Samples.other_tools !! "PRISMA_ENGINE_URL") ∧
    (environ Samples.other_tools !! "BINARY_CACHE_DIR" = None →
     environ Samples.other_tools !! "PRISMA_BINARY_CACHE_DIR" = None →
     binary_cache_dir c = engines_dir Samples.other_tools (engine_version c)).
Proof.
  apply (load_without_project_table Samples.other_tools None initial).
  right. eexists. split; [reflexivity|]. right.
  eexists. split; reflexivity.
Defined.

(** X9.  A project file in which [tool] is not a table (text, a number, an
    array) makes [load] raise [AttributeError]: the value has no [get].
    Nothing is allocated. *)
Theorem tool_not_a_table (w : World) (path : option Path) (st : state)
    (doc : gmap string value) (v : value) :
  files w (project_path path) = Document doc →
  doc !! "tool" = Some v →
  (∀ t, v ≠ VTable t) →
  load w path st = (Raise (AttributeError "get"), st).
Proof.
  intros Hfile Htool Hv. pose proof (load_spec w path st) as Hload.
  unfold read_project in Hload. rewrite Hfile in Hload. cbn in Hload.
  rewrite Htool in Hload. cbn in Hload.
  destruct v; try done. by destruct (Hv t).
Qed.

Lemma tool_not_a_table_witness :
  load Samples.tool_is_text None initial
  = (Raise (AttributeError "get"), initial).
Proof.
  apply (tool_not_a_table Samples.tool_is_text None initial
           {[ "tool" := VStr "prisma" ]} (VStr "prisma")); done.
Defined.

(** ** Which entries of the table count *)

(** Validation reads the values of the five fields and nothing else. *)
Lemma validate_fields_ext {C} (cache : option value → outcome C)
    (m1 m2 : gmap string value) :
  (∀ k, k ∈ field_names → m1 !! k = m2 !! k) →
  validate_fields cache m1 = validate_fields cache m2.
Proof.
  intros H. unfold validate_fields.
  by rewrite !H by (unfold field_names; set_solver).
Qed.

Lemma settings_values_insert_ne names w t k v k' :
  k ≠ k' →
  settings_values names w (<[k:=v]> t) !! k'
  = settings_values names w t !! k'.
Proof.
  intros Hne. rewrite !settings_values_lookup.
  by rewrite lookup_insert_ne.
Qed.

(** X10.  Keys of the table that name no field are ignored
    ([Extra.ignore]): with or without such an entry, whatever its value,
    both classes validate the same settings or raise the same error.  (Keys
    that start with an underscore are left aside: pydantic's constructor
    reads options of its own under such names.) *)
Theorem unknown_keys_ignored (w : World) (t : gmap string value)
    (k : string) (v : value) :
  k ∉ field_names →
  startswith k "_" = false →
  DefaultConfig_of_obj w (VTable (<[k:=v]> t))
    = DefaultConfig_of_obj w (VTable t) ∧
  Config_of_obj w (VTable (<[k:=v]> t)) = Config_of_obj w (VTable t).
Proof.
  intros Hk _. cbn [DefaultConfig_of_obj Config_of_obj].
  split; apply validate_fields_ext; intros k' Hk';
    apply settings_values_insert_ne; congruence.
Qed.

Lemma unknown_keys_ignored_witness :
  DefaultConfig_of_obj Samples.bare
    (VTable (<["log_level":=VScalar None]> Samples.project_table))
    = DefaultConfig_of_obj Samples.bare (VTable Samples.project_table) ∧
  Config_of_obj Samples.bare
    (VTable (<["log_level":=VScalar None]> Samples.project_table))
    = Config_of_obj Samples.bare (VTable Samples.project_table).
Proof.
  apply (unknown_keys_ignored Samples.bare Samples.project_table
           "log_level" (VScalar None)).
  - apply (bool_decide_unpack _). reflexivity.
  - reflexivity.
Defined.

(** X11.  A field whose environment variable is set is never read from the
    table: whatever the table holds under its name, text or not, valid or
    not, [DefaultConfig] validates the same settings. *)
Theorem environment_masks_table_entry (w : World) (t : gmap string value)
    (field var x : string) (v : value) :
  (field, var) ∈ DefaultConfig_env →
  environ w !! var = Some x →
  DefaultConfig_of_obj w (VTable (<[field:=v]> t))
  = DefaultConfig_of_obj w (VTable t).
Proof.
  intros Hin Hx. cbn [DefaultConfig_of_obj].
  apply validate_fields_ext. intros k' _.
  destruct (decide (field = k')) as [<-|Hne];
    [|by apply settings_values_insert_ne].
  rewrite !settings_values_lookup.
  rewrite env_settings_lookup by apply DefaultConfig_env_NoDup.
  rewrite (elem_of_list_to_map_1 _ _ _ DefaultConfig_env_NoDup Hin).
  cbn. by rewrite Hx.
Qed.

Lemma environment_masks_table_entry_witness :
  DefaultConfig_of_obj
    (Samples.with_project {[ "PRISMA_ENGINE_VERSION" := "X" ]})
    (VTable (<["engine_version":=VScalar None]> Samples.project_table))
  = DefaultConfig_of_obj
      (Samples.with_project {[ "PRISMA_ENGINE_VERSION" := "X" ]})
      (VTable Samples.project_table).
Proof.
  apply (environment_masks_table_entry
           (Samples.with_project {[ "PRISMA_ENGINE_VERSION" := "X" ]})
           Samples.project_table "engine_version" "PRISMA_ENGINE_VERSION"
           "X").
  - apply (list_elem_of_lookup_2 _ 1). reflexivity.
  - reflexivity.
Defined.

Lemma with_default_str_raises (dflt field : string) (o : option value)
    (e : exn) :
  with_default dflt (str_validator field) o = Raise e →
  e = ValidationError field.
Proof. destruct o as [[| | |[]|]|]; cbn; congruence. Qed.

(** X12.  Without the variable, a value under [engine_version] that is
    neither text nor something the [str] validator turns into text (a
    table, say) is a validation error: for a table whose keys are settings
    (none is a keyword that the constructor keeps for itself, so that
    nothing but the environment and the table is read), [load] raises
    [ValidationError] and allocates nothing. *)
Theorem engine_version_not_text (w : World) (path : option Path)
    (st : state) (t : gmap string value) (v : value) :
  read_project w (project_path path) = Return (VTable t) →
  no_reserved_keys t →
  environ w !! "PRISMA_ENGINE_VERSION" = None →
  t !! "engine_version" = Some v →
  (∀ s, v ≠ VStr s) → (∀ s, v ≠ VScalar (Some s)) →
  ∃ field, load w path st = (Raise (ValidationError field), st).
Proof.
  intros Hread _ Henv Ht Hs Hc. pose proof (load_spec w path st) as Hload.
  rewrite Hread in Hload. cbn [outcome_bind DefaultConfig_of_obj] in Hload.
  unfold DefaultConfig_validate, validate_fields in Hload.
  rewrite !settings_values_lookup in Hload.
  rewrite !env_settings_lookup in Hload by apply DefaultConfig_env_NoDup.
  revert Hload. lookup_names. cbn [mbind option_bind].
  rewrite Henv, Ht. cbn [fmap option_fmap option_map].
  destruct (with_default _ _ _) as [pv|e] eqn:Hpv.
  - cbn [outcome_bind with_default].
    assert (str_validator "engine_version" v
            = Raise (ValidationError "engine_version")) as ->.
    { destruct v as [| | |[]|]; try done;
        [by destruct (Hs s)|by destruct (Hc s)]. }
    cbn. eauto.
  - cbn [outcome_bind]. intros ->.
    apply with_default_str_raises in Hpv as ->. eauto.
Qed.

Lemma engine_version_not_text_witness :
  ∃ field,
    load Samples.nested_engine_version None initial
    = (Raise (ValidationError field), initial).
Proof.
  apply (engine_version_not_text Samples.nested_engine_version None initial
           {[ "engine_version" := VTable ∅ ]} (VTable ∅)); [done| |done..].
  intros k v H. by apply lookup_singleton_Some in H as [<- _].
Defined.

(** ** from_base again *)

(** X13.  A second [from_base] on the same [DefaultConfig] finds the cache
    directory that the first one assigned: it leaves the argument as it is
    and returns, in a new object, a [Config] equal to the first. *)
Theorem from_base_twice (w : World) (config : nat) (st : state)
    (d : DefaultConfig) :
  heap st !! config = Some (DefaultConfigObject d) →
  ∃ r1 st1 r2 st2 c,
    from_base w config st = (Return r1, st1) ∧
    from_base w config st1 = (Return r2, st2) ∧
    r1 ≠ r2 ∧
    heap st2 !! config = heap st1 !! config ∧
    heap st2 !! r1 = Some (ConfigObject c) ∧
    heap st2 !! r2 = Some (ConfigObject c).
Proof.
  intros Hd. pose proof (lookup_lt_Some _ _ _ Hd) as Hlt.
  destruct (from_base_spec w config st d Hd) as (c & Hc & Hrun1).
  set (dir := default (engines_dir w (engine_version d))
                (binary_cache_dir d)) in *.
  set (d' := with_binary_cache_dir d (Some dir)) in *.
  set (st1 := set_heap
                (λ h, <[config:=DefaultConfigObject d']> h ++ [ConfigObject c])
                st) in *.
  assert (heap st1 !! config = Some (DefaultConfigObject d')) as Hd'.
  { unfold st1, set_heap; cbn [heap].
    rewrite lookup_app_l by (by rewrite length_insert).
    by apply list_lookup_insert_eq. }
  destruct (from_base_spec w config st1 d' Hd') as (c2 & Hc2 & Hrun2).
  change (with_binary_cache_dir d'
            (Some (default (engines_dir w (engine_version d'))
                     (binary_cache_dir d')))) with d' in Hc2, Hrun2.
  assert (c2 = c) as -> by congruence.
  assert (length (heap st1) = S (length (heap st))) as Hlen.
  { unfold st1, set_heap; cbn [heap].
    rewrite length_app, length_insert. cbn. lia. }
  eexists _, st1, _, _, c. split; [exact Hrun1|]. split; [exact Hrun2|].
  unfold set_heap; cbn [heap]. rewrite Hlen.
  rewrite (list_insert_id _ _ _ Hd'). split_and!.
  - lia.
  - apply lookup_app_l. by eapply lookup_lt_Some.
  - rewrite lookup_app_l by lia.
    unfold st1, set_heap; cbn [heap].
    rewrite lookup_app_r by (by rewrite length_insert).
    by rewrite length_insert, Nat.sub_diag.
  - rewrite lookup_app_r by lia. by rewrite Hlen, Nat.sub_diag.
Qed.

Lemma from_base_twice_witness :
  ∃ r1 st1 r2 st2 c,
    from_base Samples.bare 0 Samples.one_object = (Return r1, st1) ∧
    from_base Samples.bare 0 st1 = (Return r2, st2) ∧
    r1 ≠ r2 ∧
    heap st2 !! 0 = heap st1 !! 0 ∧
    heap st2 !! r1 = Some (ConfigObject c) ∧
    heap st2 !! r2 = Some (ConfigObject c).
Proof.
  apply (from_base_twice Samples.bare 0 Samples.one_object
           Samples.plain_settings).
  reflexivity.
Defined.

(** [from_base] on an object that is a [Config] already. *)
Lemma from_base_Config_spec (w : World) (r : nat) (st : state) (c : Config) :
  heap st !! r = Some (ConfigObject c) →
  from_base w r st
  = (Return (length (heap st)),
     set_heap (λ h, h ++ [ConfigObject (Config_under w c)]) st).
Proof.
  intros Hr.
  pose proof (Config_validate_dict w (Config_as_base c)
                (binary_cache_dir c) eq_refl) as Hv.
  unfold from_base, read_base, Config_parse_obj, Config_of_obj.
  unfold_M. cbn. rewrite Hr. cbn. rewrite Hr. cbn. by rewrite Hv.
Qed.

(** X14.  [from_base] accepts a [Config] as well.  It never changes that
    argument; it returns a new object, which holds the same settings as the
    argument when none of the five environment variables of [Config] is
    set. *)
Theorem from_base_on_Config (w : World) (config : nat) (st : state)
    (c : Config) :
  heap st !! config = Some (ConfigObject c) →
  ∃ r st' c',
    from_base w config st = (Return r, st') ∧
    r ≠ config ∧
    heap st' !! config = Some (ConfigObject c) ∧
    heap st' !! r = Some (ConfigObject c') ∧
    ((∀ var, var ∈ Config_env.*2 → environ w !! var = None) → c' = c).
Proof.
  intros Hc. pose proof (lookup_lt_Some _ _ _ Hc) as Hlt.
  rewrite (from_base_Config_spec w config st c Hc).
  eexists _, _, _. split; [reflexivity|].
  unfold set_heap; cbn [heap]. split_and!.
  - lia.
  - by apply lookup_app_l_Some.
  - rewrite lookup_app_r by lia. by rewrite Nat.sub_diag.
  - intros Hnone. unfold Config_under.
    rewrite !Hnone by (apply (bool_decide_unpack _); reflexivity).
    by destruct c.
Qed.

Lemma from_base_on_Config_witness :
  ∃ r st' c',
    from_base Samples.bare 0 Samples.one_config = (Return r, st') ∧
    r ≠ 0 ∧
    heap st' !! 0 = Some (ConfigObject Samples.resolved_settings) ∧
    heap st' !! r = Some (ConfigObject c') ∧
    ((∀ var, var ∈ Config_env.*2 →
             environ Samples.bare !! var = None) →
     c' = Samples.resolved_settings).
Proof.
  apply (from_base_on_Config Samples.bare 0 Samples.one_config
           Samples.resolved_settings).
  reflexivity.
Defined.

(** ** Proxies *)

Lemma get_proxied_injective (w : World) (p : nat) (st : state) :
  cache_valid st → cache_injective st →
  cache_injective (snd (get_proxied w p st)).
Proof.
  intros Hvalid Hinj. destruct (lru_cache st !! p) as [r|] eqn:Hp.
  { by rewrite (get_proxied_hit w p r st Hp). }
  destruct (get_proxied_miss w p st Hp) as [[e ->]|(d & c & ->)]; [done|].
  intros p1 p2 r. unfold store_result. cbn [snd lru_cache].
  intros [[-> <-]|[Hne1 H1]]%lookup_insert_Some
         [[-> H2]|[Hne2 H2]]%lookup_insert_Some; try done.
  - destruct (Hvalid _ _ H2) as [c' Hc'%lookup_lt_Some]. lia.
  - destruct (Hvalid _ _ H1) as [c' Hc'%lookup_lt_Some]. lia.
  - by eapply Hinj.
Qed.

Lemma run_accesses_injective (accesses : list (World * nat * string))
    (st : state) :
  cache_valid st → cache_injective st →
  cache_injective (run_accesses accesses st).
Proof.
  revert st. induction accesses as [|[[w p] attr] accesses IH];
    intros st Hvalid Hinj; [done|].
  rewrite run_accesses_cons. apply IH.
  - by apply get_proxied_keeps.
  - by apply get_proxied_injective.
Qed.

Lemma cache_injective_initial : cache_injective initial.
Proof. intros p q r H. cbn in H. by rewrite lookup_empty in H. Qed.

(** X15.  Each proxy has a [Config] of its own: in any run of accesses,
    what [__get_proxied] returns for one proxy is never the object that it
    returns, then or later, for another. *)
Theorem proxies_do_not_share
    (before between : list (World * nat * string)) (w w' : World)
    (p q r r' : nat) (st1 st2 : state) :
  p ≠ q →
  get_proxied w p (run_accesses before initial) = (Return r, st1) →
  get_proxied w' q (run_accesses between st1) = (Return r', st2) →
  r ≠ r'.
Proof.
  intros Hpq Hp Hq.
  destruct (run_accesses_keeps before initial cache_valid_initial)
    as (Hv0 & _ & _).
  pose proof (run_accesses_injective before initial cache_valid_initial
                cache_injective_initial) as Hi0.
  pose proof (get_proxied_keeps w p _ Hv0) as (Hv1 & _ & _).
  pose proof (get_proxied_injective w p _ Hv0 Hi0) as Hi1.
  rewrite Hp in Hv1, Hi1. cbn [snd] in Hv1, Hi1.
  pose proof (get_proxied_stores _ _ _ _ _ Hp) as Hs1.
  destruct (run_accesses_keeps between st1 Hv1) as (Hv2 & _ & Hk2).
  pose proof (run_accesses_injective between st1 Hv1 Hi1) as Hi2.
  destruct (Hk2 p r Hs1) as [Hs2 _].
  pose proof (get_proxied_keeps w' q _ Hv2) as (_ & _ & Hk3).
  pose proof (get_proxied_injective w' q _ Hv2 Hi2) as Hi3.
  rewrite Hq in Hk3, Hi3. cbn [snd] in Hk3, Hi3.
  destruct (Hk3 p r Hs2) as [Hs3 _].
  pose proof (get_proxied_stores _ _ _ _ _ Hq) as Hq3.
  intros <-. apply Hpq. by eapply Hi3.
Qed.

Lemma proxies_do_not_share_witness : (1 : nat) ≠ 3.
Proof.
  apply (proxies_do_not_share [] [] Samples.bare Samples.bare 7 8 1 3
           (snd (get_proxied Samples.bare 7 initial))
           (snd (get_proxied Samples.bare 8
                   (snd (get_proxied Samples.bare 7 initial))))).
  - done.
  - vm_compute. reflexivity.
  - vm_compute. reflexivity.
Defined.

(** X16.  [__repr__], [__str__] and [__getattr__] go through the one cached
    call: once [__repr__] has returned for a proxy, the text it gave is the
    [repr] of a [Config] that every later [__getattr__] and [__str__] of
    that proxy reads as well, without running [Config.load] again. *)
Theorem repr_shares_cache (before after : list (World * nat * string))
    (repr str : object → string) (w w' : World) (self : nat) (s attr : string)
    (st1 : state) :
  proxy_repr repr w self (run_accesses before initial) = (Return s, st1) →
  ∃ c,
    s = repr (ConfigObject c) ∧
    proxy_getattr w' self attr (run_accesses after st1)
      = (object_getattr (ConfigObject c) attr, run_accesses after st1) ∧
    proxy_str str w' self (run_accesses after st1)
      = (Return (str (ConfigObject c)), run_accesses after st1) ∧
    loads_for self (run_accesses after st1) = loads_for self st1.
Proof.
  unfold proxy_repr. unfold_M. intros Hrun.
  destruct (get_proxied w self (run_accesses before initial))
    as [[r|e] st1'] eqn:Hget; [|done].
  destruct (run_accesses_keeps before initial cache_valid_initial)
    as (Hv0 & _ & _).
  pose proof (get_proxied_keeps w self _ Hv0) as (Hv1 & _ & _).
  rewrite Hget in Hv1. cbn [snd] in Hv1.
  pose proof (get_proxied_stores _ _ _ _ _ Hget) as Hstored.
  destruct (Hv1 self r Hstored) as [c Hc].
  rewrite Hc in Hrun. simplify_eq.
  destruct (run_accesses_keeps after st1 Hv1) as (_ & Hprefix & Hkeep).
  destruct (Hkeep self r Hstored) as [Hstored2 Hloads].
  pose proof (prefix_lookup_Some _ _ _ _ Hc Hprefix) as Hc2.
  pose proof (get_proxied_hit w' self r _ Hstored2) as Hhit.
  exists c. split_and!; [done| | |done].
  - unfold proxy_getattr. unfold_M. by rewrite Hhit, Hc2.
  - unfold proxy_str. unfold_M. by rewrite Hhit, Hc2.
Qed.

Lemma repr_shares_cache_witness :
  ∃ c,
    "Config" = (λ _ : object, "Config") (ConfigObject c) ∧
    proxy_getattr Samples.broken_project 0 "engine_version"
      (run_accesses []
         (snd (proxy_repr (λ _, "Config") Samples.bare 0 initial)))
      = (object_getattr (ConfigObject c) "engine_version",
         run_accesses []
           (snd (proxy_repr (λ _, "Config") Samples.bare 0 initial))) ∧
    proxy_str (λ _, "settings") Samples.broken_project 0
      (run_accesses []
         (snd (proxy_repr (λ _, "Config") Samples.bare 0 initial)))
      = (Return ((λ _ : object, "settings") (ConfigObject c)),
         run_accesses []
           (snd (proxy_repr (λ _, "Config") Samples.bare 0 initial))) ∧
    loads_for 0
      (run_accesses []
         (snd (proxy_repr (λ _, "Config") Samples.bare 0 initial)))
    = loads_for 0 (snd (proxy_repr (λ _, "Config") Samples.bare 0 initial)).
Proof.
  apply (repr_shares_cache [] [] (λ _, "Config") (λ _, "settings")
           Samples.bare Samples.broken_project 0 "Config" "engine_version").
  vm_compute. reflexivity.
Defined.

(** ** The engines directory *)

Lemma rev_app_rev_app (v cur acc : string) :
  String.rev_app (String.rev_app v cur) acc
  = String.rev_app cur (v +:+ acc).
Proof.
  revert cur. induction v as [|c v IH]; intros cur; [done|].
  cbn [String.rev_app]. by rewrite IH.
Qed.

Lemma split_slash_plain (v cur : string) :
  has_slash v = false →
  split_slash cur v = [String.rev (String.rev_app v cur)].
Proof.
  revert cur. induction v as [|c v IH]; intros cur Hv; [done|].
  destruct c as [[] [] [] [] [] [] [] []]; cbn in Hv |- *;
    try done; by apply IH.
Qed.

Lemma lstrip_slash_plain (v : string) :
  has_slash v = false → lstrip_slash v = (0, v).
Proof.
  destruct v as [|c v]; [done|].
  by destruct c as [[] [] [] [] [] [] [] []].
Qed.

(** A name that is one component makes a path of that one component. *)
Lemma Path_of_plain (v : string) :
  has_slash v = false → v ≠ "" → v ≠ "." →
  Path_of v = mkPath Relative [v].
Proof.
  intros Hv He Hd. unfold Path_of.
  rewrite (lstrip_slash_plain v Hv), (split_slash_plain v "" Hv).
  unfold String.rev. rewrite rev_app_rev_app. cbn [String.rev_app].
  rewrite NoxfileProps.append_empty_r. f_equal.
  rewrite filter_cons_True, filter_nil; [done|].
  unfold keep_part.
  apply String.eqb_neq in He, Hd. by rewrite He, Hd.
Qed.

(** A name that starts with a slash makes a rooted path. *)
Lemma Path_of_rooted (v : string) :
  path_root (Path_of (String "/" v)) ≠ Relative.
Proof.
  unfold Path_of. cbn [lstrip_slash].
  destruct (lstrip_slash v) as [n rest]. by destruct n as [|[|n]].
Qed.

(** X17.  When [from_base] has to make up the cache directory and the
    engine version is a single path component, the directory it assigns is
    the temporary directory followed by [prisma], [binaries], [engines] and
    the engine version. *)
Theorem engines_dir_of_plain_version (w : World) (config : nat)
    (st : state) (d : DefaultConfig) :
  heap st !! config = Some (DefaultConfigObject d) →
  binary_cache_dir d = None →
  has_slash (engine_version d) = false →
  engine_version d ≠ "" → engine_version d ≠ "." →
  ∃ r st' p,
    from_base w config st = (Return r, st') ∧
    heap st' !! config
      = Some (DefaultConfigObject (with_binary_cache_dir d (Some p))) ∧
    path_root p = path_root (Path_of (gettempdir w)) ∧
    path_parts p
      = path_parts (Path_of (gettempdir w))
          ++ ["prisma"; "binaries"; "engines"; engine_version d].
Proof.
  intros Hd Hnone Hs He Hdot.
  pose proof (lookup_lt_Some _ _ _ Hd) as Hlt.
  destruct (from_base_spec w config st d Hd) as (c & _ & Hrun).
  rewrite Hnone in Hrun. cbn [default from_option id] in Hrun.
  eexists _, _, _. split; [exact Hrun|].
  unfold set_heap; cbn [heap]. split_and!.
  - rewrite lookup_app_l by (by rewrite length_insert).
    by apply list_lookup_insert_eq.
  - unfold engines_dir, truediv.
    by rewrite (Path_of_plain _ Hs He Hdot).
  - unfold engines_dir, truediv.
    rewrite (Path_of_plain _ Hs He Hdot). cbn.
    by rewrite <-!(assoc_L (++)).
Qed.

Lemma engines_dir_of_plain_version_witness :
  ∃ r st' p,
    from_base Samples.bare 0 Samples.one_object = (Return r, st') ∧
    heap st' !! 0
      = Some (DefaultConfigObject
                (with_binary_cache_dir Samples.plain_settings (Some p))) ∧
    path_root p = path_root (Path_of (gettempdir Samples.bare)) ∧
    path_parts p
      = path_parts (Path_of (gettempdir Samples.bare))
          ++ ["prisma"; "binaries"; "engines";
              engine_version Samples.plain_settings].
Proof.
  apply (engines_dir_of_plain_version Samples.bare 0 Samples.one_object
           Samples.plain_settings); done.
Defined.

(** X18.  When [from_base] has to make up the cache directory and the
    engine version starts with a slash, the temporary directory drops out:
    the directory it assigns is the engine version read as a path. *)
Theorem engines_dir_of_rooted_version (w : World) (config : nat)
    (st : state) (d : DefaultConfig) (v : string) :
  heap st !! config = Some (DefaultConfigObject d) →
  binary_cache_dir d = None →
  engine_version d = String "/" v →
  ∃ r st',
    from_base w config st = (Return r, st') ∧
    heap st' !! config
      = Some (DefaultConfigObject
                (with_binary_cache_dir d (Some (Path_of (engine_version d))))).
Proof.
  intros Hd Hnone Hv.
  pose proof (lookup_lt_Some _ _ _ Hd) as Hlt.
  destruct (from_base_spec w config st d Hd) as (c & _ & Hrun).
  rewrite Hnone in Hrun. cbn [default from_option id] in Hrun.
  eexists _, _. split; [exact Hrun|].
  unfold set_heap; cbn [heap].
  rewrite lookup_app_l by (by rewrite length_insert).
  rewrite list_lookup_insert_eq by done. do 3 f_equal.
  unfold engines_dir. rewrite Hv.
  unfold truediv at 1. unfold joinpath.
  pose proof (Path_of_rooted v).
  by destruct (path_root (Path_of (String "/" v))).
Qed.

Lemma engines_dir_of_rooted_version_witness :
  ∃ r st',
    from_base Samples.bare 0 Samples.rooted_version = (Return r, st') ∧
    heap st' !! 0
      = Some (DefaultConfigObject
                (with_binary_cache_dir Samples.rooted_settings
                   (Some (Path_of (engine_version Samples.rooted_settings))))).
Proof.
  apply (engines_dir_of_rooted_version Samples.bare 0 Samples.rooted_version
           Samples.rooted_settings "srv/engines"); done.
Defined.

(** ** The other fields *)

(** X19.  The two download addresses are resolved like the engine version:
    for a table of strings whose keys are settings (none is a keyword that
    the constructor keeps for itself), [load] returns a [Config] whose
    [prisma_url] is the value of [PRISMA_CLI_URL] if that is set, else the
    table's, else the default, and likewise [engine_url] with
    [PRISMA_ENGINE_URL]. *)
Theorem urls_from_environment_table_default (w : World)
    (path : option Path) (t : gmap string value) (st : state) :
  read_project w (project_path path) = Return (VTable t) →
  no_reserved_keys t →
  (∀ k v, t !! k = Some v → ∃ s, v = VStr s) →
  ∃ r st' c,
    load w path st = (Return r, st') ∧
    heap st' !! r = Some (ConfigObject c) ∧
    prisma_url c
      = default (default default_prisma_url (str_at t "prisma_url"))
          (environ w !! "PRISMA_CLI_URL") ∧
    engine_url c
      = default (default default_engine_url (str_at t "engine_url"))
          (environ w !! "PRISMA_ENGINE_URL").
Proof.
  intros Hread _ Hstr.
  destruct (load_first_stage w path t Hread Hstr) as (d & Hd & _ & _).
  destruct (load_result w path st d Hd) as (st' & Hrun & Hc).
  pose proof (DefaultConfig_validate_strings w t Hstr) as Hv.
  rewrite Hread in Hd. cbn [outcome_bind DefaultConfig_of_obj] in Hd.
  rewrite Hv in Hd. injection Hd as Hd.
  eexists _, _, _. split; [exact Hrun|]. split; [exact Hc|].
  cbn [prisma_url engine_url]. rewrite <-Hd. cbn [prisma_url engine_url].
  split.
  - by destruct (environ w !! "PRISMA_CLI_URL").
  - by destruct (environ w !! "PRISMA_ENGINE_URL").
Qed.

Lemma urls_from_environment_table_default_witness :
  ∃ r st' c,
    load (Samples.with_project ∅) None initial = (Return r, st') ∧
    heap st' !! r = Some (ConfigObject c) ∧
    prisma_url c
      = default (default default_prisma_url
                   (str_at Samples.project_table "prisma_url"))
          (environ (Samples.with_project ∅) !! "PRISMA_CLI_URL") ∧
    engine_url c
      = default (default default_engine_url
                   (str_at Samples.project_table "engine_url"))
          (environ (Samples.with_project ∅) !! "PRISMA_ENGINE_URL").
Proof.
  apply (urls_from_environment_table_default (Samples.with_project ∅) None
           Samples.project_table initial).
  - reflexivity.
  - intros k v H. unfold Samples.project_table in H.
    apply lookup_insert_Some in H as [[<- _]|[_ H]]; [reflexivity|].
    by apply lookup_singleton_Some in H as [<- _].
  - intros k v H. unfold Samples.project_table in H.
    apply lookup_insert_Some in H as [[_ <-]|[_ H]]; [by eexists|].
    apply lookup_singleton_Some in H as [_ <-]. by eexists.
Defined.

Lemma load_binary_cache_dir_witness :
  ∃ r st' c,
    load (Samples.with_project ∅) None initial = (Return r, st') ∧
    heap st' !! r = Some (ConfigObject c) ∧
    binary_cache_dir c
    = match environ (Samples.with_project ∅) !! "BINARY_CACHE_DIR" with
      | Some x => Path_of x
      | None =>
          match environ (Samples.with_project ∅)
                  !! "PRISMA_BINARY_CACHE_DIR" with
          | Some x => Path_of x
          | None =>
              match str_at Samples.project_table "binary_cache_dir" with
              | Some x => Path_of x
              | None =>
                  engines_dir (Samples.with_project ∅) (engine_version c)
              end
          end
      end.
Proof.
  apply (load_binary_cache_dir (Samples.with_project ∅) None
           Samples.project_table initial).
  - reflexivity.
  - intros k v H. unfold Samples.project_table in H.
    apply lookup_insert_Some in H as [[<- _]|[_ H]]; [reflexivity|].
    by apply lookup_singleton_Some in H as [<- _].
  - intros k v H. unfold Samples.project_table in H.
    apply lookup_insert_Some in H as [[_ <-]|[_ H]]; [by eexists|].
    apply lookup_singleton_Some in H as [_ <-]. by eexists.
Defined.

End ConfigProps.
